(** * noise-filter: the audio signal pipeline

    A shallow embedding of the numeric core of the noise-filter demo:

    - [lib/audio.ts]: [processFloat32Array] (adaptive noise reduction driven by
      one intensity value), [decodeAndResampleToFloat32], [mixDownToMono],
      [float32ArrayToWavBlob] and [reprocessBlob];
    - [components/AudioRecorder.tsx]: [processAudioWithRNNoise] (the explicit,
      four-parameter noise gate with high-pass filter and limiter);
    - [components/SimpleAudioPlayer.tsx]: [handleReprocess];
    - [components/AudioRecorder.tsx] and [components/SimpleAudioRecorder.tsx]:
      the capture callback [onaudioprocess] and the finalisation [onstop].

    JavaScript numbers are kept behind one interface, [JSNumber], and every
    function of the source is translated once, over that interface.  Two
    instances are given:

    - [IEEE], binary64 arithmetic on [spec_float] (round to nearest, ties to
      even, with NaN, infinities and signed zeros), which is what a JavaScript
      engine computes, with [Math.fround] for stores into a [Float32Array];
    - [Ideal], exact rational arithmetic on [Q].  This is the reading under
      which the design document writes its formulas and decimal constants
      (rounding is idealised away, there is no NaN and no infinity).

    The two agree up to the rounding of the stored value wherever a branch
    compares the raw sample with a parameter or a constant (the explicit
    gate, the encoder).  They can part where a branch compares the sample
    with a value that the code has computed and rounded: the two thresholds
    of [processFloat32Array] and the ratio of [decodeAndResampleToFloat32].
    There the results on [Ideal] are the exact-arithmetic reading, and what
    the program does is stated on [IEEE]. *)

From Stdlib Require Import String Ascii.
From Stdlib Require Import ZArith QArith Qabs Qround List Bool Lia Lqa.
From Stdlib Require Import Floats.SpecFloat.
Import ListNotations.

Set Implicit Arguments.

(** ** The number interface *)

Declare Scope js_scope.
Delimit Scope js_scope with js.

Class JSNumber (num : Type) : Type := {
  (** a numeric literal of the source, or an exact integer such as a length *)
  lit : Q -> num;
  add : num -> num -> num;
  sub : num -> num -> num;
  mul : num -> num -> num;
  div : num -> num -> num;
  (** [x < y]; [x > y] is [y < x] *)
  lt : num -> num -> bool;
  Math_abs : num -> num;
  Math_max : num -> num -> num;
  Math_min : num -> num -> num;
  Math_ceil : num -> num;
  (** the value read back after a store into a [Float32Array] *)
  fround : num -> num;
  (** the truncation that opens the integer conversions (ToInt16, ToUint32):
      the argument without its fraction, and 0 where it is not finite *)
  ToInteger : num -> Z
}.

Infix "+" := add : js_scope.
Infix "-" := sub : js_scope.
Infix "*" := mul : js_scope.
Infix "/" := div : js_scope.
Infix "<?" := lt : js_scope.
Notation "x >? y" := (lt y x) (only parsing) : js_scope.

Definition of_nat {num} `{JSNumber num} (n : nat) : num :=
  lit (inject_Z (Z.of_nat n)).

Definition of_Z {num} `{JSNumber num} (z : Z) : num :=
  lit (inject_Z z).

(** *** Exact rationals *)

Module QNum.

Definition ltb (x y : Q) : bool :=
  match x ?= y with Lt => true | _ => false end.

Definition max (x y : Q) : Q := if ltb x y then y else x.
Definition min (x y : Q) : Q := if ltb y x then y else x.

Definition ceil (x : Q) : Q := inject_Z (Qceiling x).

(** rounding toward zero *)
Definition trunc (x : Q) : Z := Z.quot (Qnum x) (Zpos (Qden x)).

End QNum.

#[export] Instance Ideal : JSNumber Q := {|
  lit := fun q => q;
  add := Qplus;
  sub := Qminus;
  mul := Qmult;
  div := Qdiv;
  lt := QNum.ltb;
  Math_abs := Qabs;
  Math_max := QNum.max;
  Math_min := QNum.min;
  Math_ceil := QNum.ceil;
  fround := fun q => q;
  ToInteger := QNum.trunc
|}.

(** *** IEEE 754 binary64, with binary32 stores *)

Module B64.

Definition prec : Z := 53.
Definition emax : Z := 1024.

Definition of_int (z : Z) : spec_float := binary_normalize prec emax z 0 false.

(** A literal [n/d] is the double nearest to the quotient: the division of
    two exactly represented integers is correctly rounded. *)
Definition of_Q (q : Q) : spec_float :=
  SFdiv prec emax (of_int (Qnum q)) (of_int (Zpos (Qden q))).

Definition is_nan (x : spec_float) : bool :=
  match x with S754_nan => true | _ => false end.

Definition is_finite (x : spec_float) : bool :=
  match x with S754_zero _ | S754_finite _ _ _ => true | _ => false end.

Definition is_zero (x : spec_float) : bool :=
  match x with S754_zero _ => true | _ => false end.

(** [Math.max]: NaN if either argument is NaN, and +0 above -0. *)
Definition max (x y : spec_float) : spec_float :=
  if is_nan x || is_nan y then S754_nan
  else if SFltb x y then y
  else if SFltb y x then x
  else match x, y with
       | S754_zero true, S754_zero false => y
       | _, _ => x
       end.

(** [Math.min]: NaN if either argument is NaN, and -0 below +0. *)
Definition min (x y : spec_float) : spec_float :=
  if is_nan x || is_nan y then S754_nan
  else if SFltb x y then x
  else if SFltb y x then y
  else match x, y with
       | S754_zero false, S754_zero true => y
       | _, _ => x
       end.

(** the integer part of a finite value, rounded toward zero *)
Definition trunc (x : spec_float) : Z :=
  match x with
  | S754_finite s m e =>
      cond_Zopp s (if (0 <=? e)%Z then Z.shiftl (Zpos m) e
                   else Z.shiftr (Zpos m) (- e))
  | _ => 0%Z
  end.

(** [Math.ceil]: the least integer not below the argument.  Values with a
    non-negative exponent are integers already. *)
Definition ceil (x : spec_float) : spec_float :=
  match x with
  | S754_finite s m e =>
      if (0 <=? e)%Z then x
      else
        let c := (- ((- cond_Zopp s (Zpos m)) / 2 ^ (- e)))%Z in
        if (c =? 0)%Z then S754_zero s else of_int c
  | _ => x
  end.

(** [Math.fround]: round to the nearest binary32 value (24 bits of
    precision, [emax = 128]) and read it back as a double. *)
Definition fround (x : spec_float) : spec_float :=
  match x with
  | S754_finite s m e =>
      match binary_round 24 128 s m e with
      | S754_finite s' m' e' => binary_round prec emax s' m' e'
      | y => y
      end
  | _ => x
  end.

End B64.

#[export] Instance IEEE : JSNumber spec_float := {|
  lit := B64.of_Q;
  add := SFadd B64.prec B64.emax;
  sub := SFsub B64.prec B64.emax;
  mul := SFmul B64.prec B64.emax;
  div := SFdiv B64.prec B64.emax;
  lt := SFltb;
  Math_abs := SFabs;
  Math_max := B64.max;
  Math_min := B64.min;
  Math_ceil := B64.ceil;
  fround := B64.fround;
  ToInteger := B64.trunc
|}.

(** ** lib/audio.ts: adaptive noise reduction *)

Module Audio.

Definition SAMPLE_RATE : Z := 48000.

Section Adaptive.
Context {num : Type} `{JSNumber num}.
Local Open Scope js_scope.

(** The first loop of [processFloat32Array]: the running maximum and the
    running sum of the absolute values. *)
Definition signalCharacteristics (inputData : list num) : num * num :=
  fold_left
    (fun acc x =>
       let abs := Math_abs x in
       (Math_max (fst acc) abs, snd acc + abs))
    inputData (lit 0, lit 0).

Definition maxAmplitude (inputData : list num) : num :=
  fst (signalCharacteristics inputData).

Definition avgAmplitude (inputData : list num) : num :=
  snd (signalCharacteristics inputData) / of_nat (length inputData).

Definition voiceThreshold (inputData : list num) (intensity : num) : num :=
  avgAmplitude inputData * (lit 1.5 - intensity * lit 0.5).

Definition noiseThreshold (inputData : list num) (intensity : num) : num :=
  avgAmplitude inputData * (lit 0.3 - intensity * lit 0.2).

(** The body of the second loop, before the store into [outputData]. *)
Definition reduceSample (voiceThreshold noiseThreshold intensity sample : num) : num :=
  let amplitude := Math_abs sample in
  if amplitude >? voiceThreshold then
    sample * lit 1.1
  else if amplitude >? noiseThreshold then
    let reduction := lit 0.5 + intensity * lit 0.4 in
    sample * (lit 1 - reduction)
  else
    let reduction := lit 0.8 + intensity * lit 0.19 in
    sample * (lit 1 - reduction).

Definition processFloat32Array (inputData : list num) (intensity : num) : list num :=
  let voiceThreshold := voiceThreshold inputData intensity in
  let noiseThreshold := noiseThreshold inputData intensity in
  map (fun sample =>
         fround (reduceSample voiceThreshold noiseThreshold intensity sample))
      inputData.

End Adaptive.

End Audio.


(** ** components/AudioRecorder.tsx: the explicit noise gate *)

Module AudioRecorder.

(** The four props read by [processAudioWithRNNoise]. *)
Record Params (num : Type) : Type := {
  noiseThreshold : num;
  reductionStrength : num;
  highPassStrength : num;
  preservationThreshold : num
}.

Section Explicit.
Context {num : Type} `{JSNumber num}.
Variable p : Params num.
Local Open Scope js_scope.

(** Step 1, the noise gate with its transition zone.  [amplitude] is the
    absolute value of the raw input sample, computed once at the top of
    the loop body. *)
Definition noiseGate (amplitude sample : num) : num :=
  if amplitude <? noiseThreshold p then
    sample * reductionStrength p
  else if amplitude <? preservationThreshold p then
    let transitionRange := preservationThreshold p - noiseThreshold p in
    let position := (amplitude - noiseThreshold p) / transitionRange in
    let factor := reductionStrength p + position * (lit 1 - reductionStrength p) in
    sample * factor
  else
    sample.

(** Step 2, the high-pass filter, guarded by [i > 0 && highPassStrength > 0];
    it reads the raw previous input sample. *)
Definition highPass (inputData : list num) (i : nat) (sample : num) : num :=
  if (0 <? i)%nat && (highPassStrength p >? lit 0) then
    let filterCoeff := lit 1 - highPassStrength p in
    sample * filterCoeff - nth (i - 1) inputData (lit 0) * highPassStrength p
  else
    sample.

(** Step 3, the light compression of very loud sounds.  [amplitude] is
    still the one computed at the top of the loop body. *)
Definition preserveDynamics (amplitude sample : num) : num :=
  if amplitude >? preservationThreshold p then
    if amplitude >? lit 0.8 then
      let sign := if sample <? lit 0 then lit (-1) else lit 1 in
      let compressedAmp := lit 0.8 + (amplitude - lit 0.8) * lit 0.5 in
      sign * compressedAmp
    else sample
  else sample.

(** The sample as it stands after steps 1 and 2. *)
Definition filtered (inputData : list num) (i : nat) : num :=
  let sample := nth i inputData (lit 0) in
  let amplitude := Math_abs sample in
  highPass inputData i (noiseGate amplitude sample).

(** One iteration of the loop, up to the store [outputData[i] = sample]. *)
Definition processSample (inputData : list num) (i : nat) : num :=
  let sample := nth i inputData (lit 0) in
  let amplitude := Math_abs sample in
  let sample := noiseGate amplitude sample in
  let sample := highPass inputData i sample in
  preserveDynamics amplitude sample.

Definition processAudioWithRNNoise (inputData : list num) : list num :=
  map (fun i => fround (processSample inputData i))
      (seq 0 (length inputData)).

End Explicit.

End AudioRecorder.

(** ** ArrayBuffer and DataView *)

(** A step that may throw; [None] stands for the exception. *)
Definition bind {A B : Type} (m : option A) (k : A -> option B) : option B :=
  match m with
  | Some a => k a
  | None => None
  end.

Notation "x <- m ;; k" := (bind m (fun x => k))
  (at level 61, m at next level, right associativity).

Module DataView.

(** Bytes are integers in [0, 256). *)
Definition byte : Type := Z.

(** [new ArrayBuffer(n)]: [n] zero bytes. *)
Definition ArrayBuffer (n : nat) : list byte := repeat 0%Z n.

(** The [n] low-order bytes of [z], least significant first.  On a negative
    [z] these are the bytes of its two's complement, so that this is the
    wrap-around of ToUint8, ToUint16, ToInt16 and ToUint32 written out. *)
Fixpoint le_bytes (n : nat) (z : Z) : list byte :=
  match n with
  | O => []
  | S n' => Z.land z 255 :: le_bytes n' (Z.shiftr z 8)
  end.

(** A write of [bytes] at [byteOffset]; a write that does not fit in the
    view throws a RangeError. *)
Definition setBytes (view : list byte) (byteOffset : nat) (bytes : list byte)
  : option (list byte) :=
  if (byteOffset + length bytes <=? length view)%nat then
    Some (firstn byteOffset view ++ bytes
            ++ skipn (byteOffset + length bytes) view)
  else None.

Definition setUint8 (view : list byte) (byteOffset : nat) (value : Z) :=
  setBytes view byteOffset (le_bytes 1 value).

(** The three setters below are called with [littleEndian = true]. *)
Definition setUint16 (view : list byte) (byteOffset : nat) (value : Z) :=
  setBytes view byteOffset (le_bytes 2 value).

Definition setUint32 (view : list byte) (byteOffset : nat) (value : Z) :=
  setBytes view byteOffset (le_bytes 4 value).

Definition setInt16 (view : list byte) (byteOffset : nat) (value : Z) :=
  setBytes view byteOffset (le_bytes 2 value).

(** The [len] bytes from [byteOffset] on. *)
Definition slice (view : list byte) (byteOffset len : nat) : list byte :=
  firstn len (skipn byteOffset view).

(** Reading back: an unsigned and a signed little-endian integer. *)
Fixpoint le_combine (bytes : list byte) : Z :=
  match bytes with
  | [] => 0
  | b :: rest => b + 256 * le_combine rest
  end%Z.

Definition getInt16 (view : list byte) (byteOffset : nat) : Z :=
  let u := le_combine (slice view byteOffset 2) in
  (if u <? 32768 then u else u - 65536)%Z.

End DataView.

Record Blob : Type := {
  blobBytes : list DataView.byte;
  blobType : string
}.

(** ** lib/audio.ts: the WAV container *)

Module Wav.
Import DataView.

Definition charCode (c : ascii) : Z := Z.of_N (N_of_ascii c).

(** [writeString]: one [setUint8] per character. *)
Fixpoint writeString (view : list byte) (offset : nat) (s : string)
  : option (list byte) :=
  match s with
  | EmptyString => Some view
  | String c rest =>
      view' <- setUint8 view offset (charCode c) ;;
      writeString view' (S offset) rest
  end.

Section Encode.
Context {num : Type} `{JSNumber num}.
Local Open Scope js_scope.

(** [Math.max(-1, Math.min(1, audioData[i]))] *)
Definition clamp (x : num) : num :=
  Math_max (lit (-1)) (Math_min (lit 1) x).

(** [sample < 0 ? sample * 0x8000 : sample * 0x7FFF] *)
Definition intSample (sample : num) : num :=
  if sample <? lit 0 then sample * lit 32768 else sample * lit 32767.

(** [setInt16] first takes its argument to an integer. *)
Definition pcm16 (x : num) : Z := ToInteger (intSample (clamp x)).

(** The loop that converts the samples, with its running [offset]. *)
Fixpoint writeSamples (view : list byte) (offset : nat) (audioData : list num)
  : option (list byte) :=
  match audioData with
  | [] => Some view
  | x :: rest =>
      view' <- setInt16 view offset (pcm16 x) ;;
      writeSamples view' (offset + 2) rest
  end.

(** The sizes and rates are whole numbers; they are kept in [Z] and in
    [nat], where JavaScript holds them exactly in its numbers. *)
Definition float32ArrayToWavBlob (audioData : list num) (sampleRate : Z)
  : option Blob :=
  let numChannels := 1%Z in
  let bytesPerSample := 2%nat in
  let blockAlign := (numChannels * Z.of_nat bytesPerSample)%Z in
  let byteRate := (sampleRate * blockAlign)%Z in
  let dataSize := (length audioData * bytesPerSample)%nat in
  let fileSize := (36 + Z.of_nat dataSize)%Z in
  let view := ArrayBuffer (44 + dataSize) in
  view <- writeString view 0 "RIFF" ;;
  view <- setUint32 view 4 fileSize ;;
  view <- writeString view 8 "WAVE" ;;
  view <- writeString view 12 "fmt " ;;
  view <- setUint32 view 16 16 ;;
  view <- setUint16 view 20 1 ;;
  view <- setUint16 view 22 numChannels ;;
  view <- setUint32 view 24 sampleRate ;;
  view <- setUint32 view 28 byteRate ;;
  view <- setUint16 view 32 blockAlign ;;
  view <- setUint16 view 34 16 ;;
  view <- writeString view 36 "data" ;;
  view <- setUint32 view 40 (Z.of_nat dataSize) ;;
  view <- writeSamples view 44 audioData ;;
  Some {| blobBytes := view; blobType := "audio/wav" |}.

End Encode.

End Wav.

(** ** lib/audio.ts: decoding, resampling and reprocessing *)

Module AudioBuffer.

(** What the code reads of a decoded [AudioBuffer]: [numberOfChannels] is
    the number of planes, [getChannelData c] is plane [c]. *)
Record t (num : Type) : Type := {
  sampleRate : Z;
  length : nat;
  channelData : list (list num)
}.

Definition numberOfChannels {num} (b : t num) : nat :=
  List.length (channelData b).

Definition getChannelData {num} (b : t num) (c : nat) : list num :=
  nth c (channelData b) [].

End AudioBuffer.

Module Resample.

Section Decode.
Context {num : Type} `{JSNumber num}.
Local Open Scope js_scope.

(** The browser's decoder: the bytes of a blob to an [AudioBuffer], or a
    rejection. *)
Variable decodeAudioData : list DataView.byte -> option (AudioBuffer.t num).

(** The browser's offline renderer: [new OfflineAudioContext(1, length,
    sampleRate)] wired to the source buffer through the splitter and the
    merger, then [startRendering()] and [getChannelData(0)]. *)
Variable startRendering : AudioBuffer.t num -> nat -> Z -> list num.

Definition mixDownToMono (buffer : AudioBuffer.t num) : list num :=
  let len := AudioBuffer.length buffer in
  fold_left
    (fun out ch =>
       map (fun i =>
              fround (nth i out (lit 0)
                      + nth i ch (lit 0) / of_nat (AudioBuffer.numberOfChannels buffer)))
           (seq 0 len))
    (AudioBuffer.channelData buffer)
    (repeat (lit 0) len).

(** [Math.ceil(audioBuffer.length * (SAMPLE_RATE / audioBuffer.sampleRate))] *)
Definition lengthInSamples (audioBuffer : AudioBuffer.t num) : num :=
  Math_ceil (of_nat (AudioBuffer.length audioBuffer)
             * (of_Z Audio.SAMPLE_RATE / of_Z (AudioBuffer.sampleRate audioBuffer))).

Definition decodeAndResampleToFloat32 (blob : Blob) : option (list num) :=
  audioBuffer <- decodeAudioData (blobBytes blob) ;;
  if (AudioBuffer.sampleRate audioBuffer =? Audio.SAMPLE_RATE)%Z then
    Some (if (AudioBuffer.numberOfChannels audioBuffer =? 1)%nat
          then AudioBuffer.getChannelData audioBuffer 0
          else mixDownToMono audioBuffer)
  else
    let lengthInSamples := lengthInSamples audioBuffer in
    Some (startRendering audioBuffer
            (Z.to_nat (ToInteger lengthInSamples)) Audio.SAMPLE_RATE).

Definition reprocessBlob (originalBlob : Blob) (intensity : num) : option Blob :=
  floatData <- decodeAndResampleToFloat32 originalBlob ;;
  let processed := Audio.processFloat32Array floatData intensity in
  Wav.float32ArrayToWavBlob processed Audio.SAMPLE_RATE.

(** *** components/SimpleAudioPlayer.tsx *)

Record AudioData : Type := {
  original : Blob;
  processed : Blob
}.

(** The props and the state that [handleReprocess] reads and writes. *)
Record Player : Type := {
  audioData : AudioData;
  intensity : num;
  reprocessedBlob : option Blob
}.

(** [handleReprocess]: on success the new blob replaces
    [reprocessedBlob]; an exception is caught and logged. *)
Definition handleReprocess (s : Player) : Player :=
  match reprocessBlob (original (audioData s)) (intensity s) with
  | Some newProcessedBlob =>
      {| audioData := audioData s;
         intensity := intensity s;
         reprocessedBlob := Some newProcessedBlob |}
  | None => s
  end.

(** [getAudioBlob] for the processed side. *)
Definition processedBlob (s : Player) : Blob :=
  match reprocessedBlob s with
  | Some b => b
  | None => processed (audioData s)
  end.

End Decode.

End Resample.

(** ** Float32Array *)

Module Float32Array.

Section Ops.
Context {num : Type} `{JSNumber num}.

(** [new Float32Array(n)]: [n] zeros. *)
Definition make (n : nat) : list num := repeat (lit 0) n.

(** [target.set(source, offset)]: the source is copied into the target from
    [offset] on; a source that does not fit throws a RangeError. *)
Definition set (target source : list num) (offset : nat) : option (list num) :=
  if (offset + length source <=? length target)%nat then
    Some (firstn offset target ++ source
            ++ skipn (offset + length source) target)
  else None.

End Ops.

End Float32Array.

(** ** The recorders: capture callbacks and finalisation

    [AudioRecorder.tsx] and [SimpleAudioRecorder.tsx] share this code; they
    differ in the block processor they call ([processAudioWithRNNoise] and
    [processFloat32Array] at the current intensity), which is a variable
    here. *)

Module Recorder.

Section Session.
Context {num : Type} `{JSNumber num}.
Variable process : list num -> list num.

(** [originalAudioDataRef.current] and [processedChunksRef.current]. *)
Record Refs : Type := {
  originalAudioData : list (list num);
  processedChunks : list (list num)
}.

Definition noChunks : Refs :=
  {| originalAudioData := []; processedChunks := [] |}.

(** [scriptProcessor.onaudioprocess]: a copy of the input block and a copy
    of the processed block are pushed; the processed block is also what is
    written to the output buffer, returned here beside the refs. *)
Definition onaudioprocess (refs : Refs) (inputData : list num) : Refs * list num :=
  let processedData := process inputData in
  ({| originalAudioData := originalAudioData refs ++ [inputData];
      processedChunks := processedChunks refs ++ [processedData] |},
   processedData).

(** [chunks.reduce((acc, chunk) => acc + chunk.length, 0)] *)
Definition totalLength (chunks : list (list num)) : nat :=
  fold_left (fun acc chunk => (acc + length chunk)%nat) chunks 0%nat.

(** [for (const chunk of chunks) { buffer.set(chunk, offset);
    offset += chunk.length; }] *)
Fixpoint setChunks (buffer : list num) (offset : nat) (chunks : list (list num))
  : option (list num) :=
  match chunks with
  | [] => Some buffer
  | chunk :: rest =>
      buffer' <- Float32Array.set buffer chunk offset ;;
      setChunks buffer' (offset + length chunk) rest
  end.

Definition joinChunks (chunks : list (list num)) : option (list num) :=
  setChunks (Float32Array.make (totalLength chunks)) 0 chunks.

(** The values that [offset] takes at the head of that loop: where each
    chunk starts in the joined buffer. *)
Fixpoint chunkOffsets (offset : nat) (chunks : list (list num)) : list nat :=
  match chunks with
  | [] => []
  | chunk :: rest => offset :: chunkOffsets (offset + length chunk) rest
  end.

(** [mediaRecorder.onstop]: both sides are joined and encoded, and handed
    to [onRecordingComplete]; an exception is caught and reported.  The two
    refs are cleared in either case. *)
Definition onstop (refs : Refs) : option Resample.AudioData * Refs :=
  (originalBuffer <- joinChunks (originalAudioData refs) ;;
   originalBlob <- Wav.float32ArrayToWavBlob originalBuffer Audio.SAMPLE_RATE ;;
   processedBuffer <- joinChunks (processedChunks refs) ;;
   processedBlob <- Wav.float32ArrayToWavBlob processedBuffer Audio.SAMPLE_RATE ;;
   Some {| Resample.original := originalBlob;
           Resample.processed := processedBlob |},
   noChunks).

(** The refs after the capture callback has run on each block in turn. *)
Definition capture (blocks : list (list num)) : Refs :=
  fold_left (fun refs inputData => fst (onaudioprocess refs inputData))
    blocks noChunks.

End Session.

End Recorder.

(** ** Reading a container back *)

Module WavReader.

(** [getUint16(byteOffset, true)] and [getUint32(byteOffset, true)]. *)
Definition getUint16 (view : list DataView.byte) (byteOffset : nat) : Z :=
  DataView.le_combine (DataView.slice view byteOffset 2).

Definition getUint32 (view : list DataView.byte) (byteOffset : nat) : Z :=
  DataView.le_combine (DataView.slice view byteOffset 4).

(** The samples of the data chunk: one [getInt16] every two bytes from
    byte 44 on. *)
Definition readSamples (view : list DataView.byte) : list Z :=
  map (fun i => DataView.getInt16 view (44 + 2 * i))
      (seq 0 ((length view - 44) / 2)).

End WavReader.

(** ** Reference definitions, in the words of the design document *)

Module Design.

(** The mean of the absolute sample values. *)
Definition meanAbs (samples : list Q) : Q :=
  fold_right Qplus 0 (map Qabs samples) / inject_Z (Z.of_nat (length samples)).


(** A non-finite sample read as zero. *)
Definition zeroNonFinite (x : spec_float) : spec_float :=
  if B64.is_finite x then x else S754_zero false.

(** The length of a resampled buffer: the ceiling of
    [originalLength * canonicalRate / nativeRate]. *)
Definition resampledLength (originalLength nativeRate : Z) : Z :=
  (- ((- (originalLength * Audio.SAMPLE_RATE)) / nativeRate))%Z.

(** The bytes of a four-character chunk tag. *)
Definition tag (s : string) : list DataView.byte :=
  map Wav.charCode (list_ascii_of_string s).

(** The byte layout of a mono 16-bit PCM file, field by field, for a list
    of 16-bit sample values. *)
Definition wavLayout (sampleRate : Z) (samples : list Z) : list DataView.byte :=
  let dataSize := (Z.of_nat (length samples) * 2)%Z in
  tag "RIFF" ++ DataView.le_bytes 4 (36 + dataSize) ++ tag "WAVE"
  ++ tag "fmt " ++ DataView.le_bytes 4 16
  ++ DataView.le_bytes 2 1 ++ DataView.le_bytes 2 1
  ++ DataView.le_bytes 4 sampleRate ++ DataView.le_bytes 4 (sampleRate * 2)
  ++ DataView.le_bytes 2 2 ++ DataView.le_bytes 2 16
  ++ tag "data" ++ DataView.le_bytes 4 dataSize
  ++ flat_map (DataView.le_bytes 2) samples.

(** The multiplier of the transition zone: the straight line through
    [reductionStrength] at [noiseThreshold] and 1 at [preservationThreshold]. *)
Definition transitionFactor (p : AudioRecorder.Params Q) (a : Q) : Q :=
  AudioRecorder.reductionStrength p
  + (a - AudioRecorder.noiseThreshold p)
    / (AudioRecorder.preservationThreshold p - AudioRecorder.noiseThreshold p)
    * (1 - AudioRecorder.reductionStrength p).

End Design.

(** ** Settings and buffers used in the examples *)

Module Examples.
Import AudioRecorder.

Section Settings.
Context {num : Type} `{JSNumber num}.

Definition setting (nt rs hp pt : Q) : Params num :=
  {| noiseThreshold := lit nt; reductionStrength := lit rs;
     highPassStrength := lit hp; preservationThreshold := lit pt |}.

(** The three preset buttons of the recorder. *)
Definition CleanAndCrisp : Params num := setting 0.003 0.2 0.01 0.020.
Definition Aggressive : Params num := setting 0.008 0.5 0.03 0.025.
Definition Balanced : Params num := setting 0.005 0.3 0.02 0.015.

(** Slider positions with the noise threshold at its maximum, the speech
    preservation threshold at its minimum and the high-pass filter off. *)
Definition Crossed : Params num := setting 0.020 0.3 0 0.010.

(** A decoded single-channel buffer of [len] silent frames at [rate] Hz. *)
Definition silentBuffer (rate : Z) (len : nat) : AudioBuffer.t num :=
  {| AudioBuffer.sampleRate := rate;
     AudioBuffer.length := len;
     AudioBuffer.channelData := [repeat (lit 0) len] |}.

(** A decoder that yields [len] silent frames at [rate] Hz whatever the
    bytes, and a renderer that yields silence of the requested length. *)
Definition silentDecoder (rate : Z) (len : nat) (bytes : list DataView.byte)
  : option (AudioBuffer.t num) :=
  Some (silentBuffer rate len).

Definition silentRenderer (source : AudioBuffer.t num) (len : nat) (rate : Z)
  : list num :=
  repeat (lit 0) len.


End Settings.

(** A buffer whose mean absolute value is 0.1. *)
Definition mixedBuffer : list Q := [0.2; -0.05; 0.01; 0.14].



(** A buffer with one corrupt sample, and the same buffer with a zero in
    its place. *)
Definition corruptBuffer : list spec_float :=
  [B64.of_Q 0.5; S754_nan; B64.of_Q 0.25].

Definition repairedBuffer : list spec_float :=
  [B64.of_Q 0.5; B64.of_Q 0; B64.of_Q 0.25].

Definition emptyBlob : Blob := {| blobBytes := []; blobType := "audio/webm" |}.

(** A player that holds processed audio from an earlier run. *)
Definition usedPlayer : @Resample.Player Q :=
  {| Resample.audioData :=
       {| Resample.original := emptyBlob;
          Resample.processed := {| blobBytes := [1%Z]; blobType := "audio/wav" |} |};
     Resample.intensity := 0.5;
     Resample.reprocessedBlob := Some {| blobBytes := [2%Z]; blobType := "audio/wav" |} |}.

End Examples.

(** * Properties *)

Unset Implicit Arguments.

(** ** Comparisons and absolute values on the rationals *)

Lemma Qltb_lt (x y : Q) : QNum.ltb x y = true <-> x < y.
Proof.
  unfold QNum.ltb. rewrite Qlt_alt.
  destruct (x ?= y); split; intro E; try reflexivity; discriminate E.
Qed.

Lemma Qltb_ge (x y : Q) : QNum.ltb x y = false <-> y <= x.
Proof.
  rewrite <- not_true_iff_false, Qltb_lt. split.
  - apply Qnot_lt_le.
  - apply Qle_not_lt.
Qed.

(** Case analysis on a comparison, leaving the order fact in the context. *)
Ltac case_ltb x y :=
  let E := fresh "E" in
  destruct (QNum.ltb x y) eqn:E;
  [ apply Qltb_lt in E | apply Qltb_ge in E ].

Lemma Qdiv_nonneg (x y : Q) : 0 <= x -> 0 <= y -> 0 <= x / y.
Proof.
  intros Hx Hy. unfold Qdiv.
  apply Qmult_le_0_compat; [ exact Hx | apply Qinv_le_0_compat; exact Hy ].
Qed.

Lemma nth_map_Some {A B : Type} (f : A -> B) (l : list A) (i : nat) (x : A) (d : B) :
  nth_error l i = Some x -> nth i (map f l) d = f x.
Proof.
  revert i; induction l as [|a l IH]; intros [|i] E; simpl in *;
    try discriminate E.
  - now inversion E.
  - now apply IH.
Qed.

(** ** Adaptive mode on exact arithmetic *)

Section AdaptiveIdeal.
Import Audio.

Lemma sum_of_amplitudes (l : list Q) (m s : Q) :
  snd (fold_left
         (fun acc x => (QNum.max (fst acc) (Qabs x), snd acc + Qabs x))
         l (m, s))
  == s + fold_right Qplus 0 (map Qabs l).
Proof.
  revert m s; induction l as [|a l IH]; intros m s; simpl.
  - ring.
  - rewrite IH. ring.
Qed.

Lemma avgAmplitude_meanAbs (l : list Q) :
  avgAmplitude l == Design.meanAbs l.
Proof.
  unfold avgAmplitude, Design.meanAbs, signalCharacteristics, of_nat; simpl.
  rewrite sum_of_amplitudes. apply Qdiv_comp; [ ring | reflexivity ].
Qed.

Lemma sum_abs_nonneg (l : list Q) : 0 <= fold_right Qplus 0 (map Qabs l).
Proof.
  induction l as [|a l IH]; simpl.
  - apply Qle_refl.
  - pose proof (Qabs_nonneg a). lra.
Qed.

Lemma avgAmplitude_nonneg (l : list Q) : 0 <= avgAmplitude l.
Proof.
  rewrite avgAmplitude_meanAbs. unfold Design.meanAbs.
  apply Qdiv_nonneg.
  - apply sum_abs_nonneg.
  - change 0 with (inject_Z 0). rewrite <- Zle_Qle. lia.
Qed.

(** The three bands of [reduceSample], for thresholds derived from a
    non-negative average. *)
Lemma reduceSample_bands (avg intensity sample : Q) :
  0 <= avg ->
  let vt := avg * (1.5 - intensity * 0.5) in
  let nt := avg * (0.3 - intensity * 0.2) in
  let out := reduceSample vt nt intensity sample in
  (vt < Qabs sample -> out == sample * 1.1)
  /\ (nt < Qabs sample /\ Qabs sample <= vt ->
      out == sample * (1 - (0.5 + intensity * 0.4)))
  /\ (Qabs sample <= nt ->
      out == sample * (1 - (0.8 + intensity * 0.19))).
Proof.
  intros Havg vt nt out. subst out. unfold reduceSample; simpl.
  pose proof (Qabs_nonneg sample) as Ha.
  case_ltb vt (Qabs sample); [ | case_ltb nt (Qabs sample) ].
  - repeat split; intros; try reflexivity; exfalso; subst vt nt; nra.
  - repeat split; intros; try reflexivity; exfalso; lra.
  - repeat split; intros; try reflexivity; exfalso; lra.
Qed.

End AdaptiveIdeal.


(** ** Adaptive mode in the arithmetic of the engine *)

Section AdaptiveComputed.
Context {num : Type} `{JSNumber num}.




End AdaptiveComputed.





(** ** Explicit mode on exact arithmetic *)

Lemma nth_map_seq {A : Type} (f : nat -> A) (n i : nat) (d : A) :
  (i < n)%nat -> nth i (map f (seq 0 n)) d = f i.
Proof.
  intro Hi. rewrite (nth_indep _ d (f 0%nat)) by (now rewrite length_map, length_seq).
  rewrite map_nth, seq_nth by exact Hi. reflexivity.
Qed.

Lemma nth_processAudioWithRNNoise {num : Type} `{JSNumber num}
    (p : AudioRecorder.Params num) (inputData : list num) (i : nat) (d : num) :
  (i < length inputData)%nat ->
  nth i (AudioRecorder.processAudioWithRNNoise p inputData) d
  = fround (AudioRecorder.processSample p inputData i).
Proof.
  intro Hi. unfold AudioRecorder.processAudioWithRNNoise.
  now rewrite nth_map_seq.
Qed.

Lemma length_processAudioWithRNNoise {num : Type} `{JSNumber num}
    (p : AudioRecorder.Params num) (inputData : list num) :
  length (AudioRecorder.processAudioWithRNNoise p inputData) = length inputData.
Proof.
  unfold AudioRecorder.processAudioWithRNNoise.
  now rewrite length_map, length_seq.
Qed.

Lemma length_processFloat32Array {num : Type} `{JSNumber num}
    (inputData : list num) (intensity : num) :
  length (Audio.processFloat32Array inputData intensity) = length inputData.
Proof. unfold Audio.processFloat32Array. apply length_map. Qed.

Section ExplicitIdeal.
Import AudioRecorder.
Variable p : Params Q.

Lemma noiseGate_cases (sample : Q) :
  let a := Qabs sample in
  (a < noiseThreshold p -> noiseGate p a sample == sample * reductionStrength p)
  /\ (noiseThreshold p <= a /\ a < preservationThreshold p ->
      noiseGate p a sample == sample * Design.transitionFactor p a)
  /\ (noiseThreshold p <= a /\ preservationThreshold p <= a ->
      noiseGate p a sample = sample).
Proof.
  intro a. unfold noiseGate, Design.transitionFactor; simpl.
  case_ltb a (noiseThreshold p); [ | case_ltb a (preservationThreshold p) ];
    repeat split; intros; try reflexivity; exfalso; lra.
Qed.

Lemma transition_ends :
  noiseThreshold p < preservationThreshold p ->
  Design.transitionFactor p (noiseThreshold p) == reductionStrength p
  /\ Design.transitionFactor p (preservationThreshold p) == 1.
Proof.
  intro Hlt. unfold Design.transitionFactor. split; field; lra.
Qed.

Lemma highPass_cases (inputData : list Q) (i : nat) (sample : Q) :
  ((0 < i)%nat -> 0 <= highPassStrength p ->
   highPass p inputData i sample
   == sample * (1 - highPassStrength p)
      - nth (i - 1) inputData 0 * highPassStrength p)
  /\ (i = 0%nat \/ highPassStrength p <= 0 ->
      highPass p inputData i sample = sample).
Proof.
  unfold highPass; simpl.
  destruct (Nat.ltb_spec 0 i) as [Hi|Hi]; simpl;
    [ case_ltb 0 (highPassStrength p) | ].
  - split; [ reflexivity | intros [->|Hle]; [ lia | exfalso; lra ] ].
  - split; [ intros _ Hge | reflexivity ].
    assert (Hz : highPassStrength p == 0) by lra.
    rewrite Hz. ring.
  - split; [ lia | reflexivity ].
Qed.

Lemma preserveDynamics_cases (a x : Q) :
  (preservationThreshold p < a /\ 0.8 < a ->
     (x < 0 -> preserveDynamics p a x == -1 * (0.8 + (a - 0.8) * 0.5))
     /\ (0 <= x -> preserveDynamics p a x == 1 * (0.8 + (a - 0.8) * 0.5)))
  /\ (a <= preservationThreshold p \/ a <= 0.8 -> preserveDynamics p a x = x).
Proof.
  unfold preserveDynamics; simpl.
  case_ltb (preservationThreshold p) a; [ case_ltb 0.8 a | ].
  - split; [ intros _ | intros [H|H]; exfalso; lra ].
    case_ltb x 0; split; intros; try reflexivity; exfalso; lra.
  - split; [ intros [_ H]; exfalso; lra | reflexivity ].
  - split; [ intros [H _]; exfalso; lra | reflexivity ].
Qed.

End ExplicitIdeal.

Lemma processSample_steps (p : AudioRecorder.Params Q) (inputData : list Q) (i : nat) :
  AudioRecorder.processSample p inputData i
  = AudioRecorder.preserveDynamics p (Qabs (nth i inputData 0))
      (AudioRecorder.highPass p inputData i
         (AudioRecorder.noiseGate p (Qabs (nth i inputData 0)) (nth i inputData 0))).
Proof. reflexivity. Qed.




(** C5, as the code has it.  In explicit mode, for every buffer, parameters
    and index: a sample of amplitude [a < noiseThreshold] is multiplied by
    [reductionStrength]; for [noiseThreshold <= a < preservationThreshold] it
    is multiplied by the factor that runs linearly from [reductionStrength]
    at [noiseThreshold] to 1 at [preservationThreshold]; for [a] at or above
    both thresholds the gate leaves it as it is.  For [i > 0] and a
    non-negative [highPassStrength] the filter then gives
    [gated * (1 - highPassStrength) - input[i-1] * highPassStrength], on the
    gated current sample and the raw previous one; at index 0, and for a
    [highPassStrength] that is not positive, the gated value is left. *)
Theorem gate_then_high_pass
    (p : AudioRecorder.Params Q) (inputData : list Q) (i : nat) :
  let nt := AudioRecorder.noiseThreshold p in
  let rs := AudioRecorder.reductionStrength p in
  let hp := AudioRecorder.highPassStrength p in
  let pt := AudioRecorder.preservationThreshold p in
  let sample := nth i inputData 0 in
  let a := Qabs sample in
  let gated := AudioRecorder.noiseGate p a sample in
  (a < nt -> gated == sample * rs)
  /\ (nt <= a /\ a < pt -> gated == sample * Design.transitionFactor p a)
  /\ (nt < pt -> Design.transitionFactor p nt == rs /\ Design.transitionFactor p pt == 1)
  /\ (nt <= a /\ pt <= a -> gated == sample)
  /\ ((0 < i)%nat -> 0 <= hp ->
      AudioRecorder.filtered p inputData i
      == gated * (1 - hp) - nth (i - 1) inputData 0 * hp)
  /\ (i = 0%nat \/ hp <= 0 -> AudioRecorder.filtered p inputData i == gated).
Proof.
  intros nt rs hp pt sample a gated.
  destruct (noiseGate_cases p sample) as (Hlow & Hmid & Hhigh).
  destruct (highPass_cases p inputData i gated) as (Hfilter & Hskip).
  split; [ exact Hlow | ]. split; [ exact Hmid | ].
  split; [ apply transition_ends | ].
  split.
  { intro Hc. pose proof (Hhigh Hc) as E. change (gated = sample) in E.
    rewrite E. reflexivity. }
  split; [ exact Hfilter | ].
  intro Hc. change (AudioRecorder.filtered p inputData i)
    with (AudioRecorder.highPass p inputData i gated).
  rewrite (Hskip Hc). reflexivity.
Qed.

Lemma gate_then_high_pass_witness :
  (AudioRecorder.noiseGate Examples.Balanced (Qabs 0.001) 0.001 == 0.001 * 0.3)
  /\ (AudioRecorder.noiseGate Examples.Balanced (Qabs 0.01) 0.01
      == 0.01 * Design.transitionFactor Examples.Balanced (Qabs 0.01))
  /\ (Design.transitionFactor Examples.Balanced 0.005 == 0.3
      /\ Design.transitionFactor Examples.Balanced 0.015 == 1)
  /\ (AudioRecorder.noiseGate Examples.Balanced (Qabs 0.5) 0.5 == 0.5)
  /\ (AudioRecorder.filtered Examples.Balanced [0.001; 0.5] 1
      == AudioRecorder.noiseGate Examples.Balanced (Qabs 0.5) 0.5 * (1 - 0.02)
         - 0.001 * 0.02)
  /\ (AudioRecorder.filtered Examples.Balanced [0.001; 0.5] 0
      == AudioRecorder.noiseGate Examples.Balanced (Qabs 0.001) 0.001).
Proof.
  destruct (gate_then_high_pass Examples.Balanced [0.001; 0.5] 0)
    as (Hlow & _ & _ & _ & _ & Hfirst).
  destruct (gate_then_high_pass Examples.Balanced [0.01] 0)
    as (_ & Hmid & Hends & _).
  destruct (gate_then_high_pass Examples.Balanced [0.001; 0.5] 1)
    as (_ & _ & _ & Hhigh & Hfilter & _).
  split; [ | split; [ | split; [ | split; [ | split ] ] ] ].
  - apply Hlow. vm_compute; reflexivity.
  - apply Hmid. split; [ vm_compute; discriminate | vm_compute; reflexivity ].
  - apply Hends. vm_compute; reflexivity.
  - apply Hhigh. split; vm_compute; discriminate.
  - apply Hfilter; [ simpl; lia | vm_compute; discriminate ].
  - apply Hfirst. left; reflexivity.
Defined.

(** C5, as stated, fails where the two thresholds cross.  With
    [noiseThreshold = 0.020] and [preservationThreshold = 0.010] a sample of
    amplitude 0.015 is at or above [preservationThreshold], and the gate
    multiplies it by [reductionStrength]. *)
Lemma gate_high_band_fails :
  AudioRecorder.preservationThreshold Examples.Crossed <= Qabs 0.015
  /\ AudioRecorder.noiseGate Examples.Crossed (Qabs 0.015) 0.015 == 0.015 * 0.3
  /\ ~ AudioRecorder.noiseGate Examples.Crossed (Qabs 0.015) 0.015 == 0.015.
Proof.
  repeat split; try (vm_compute; reflexivity); vm_compute; discriminate.
Qed.

(** C10, as the code has it.  In explicit mode with [highPassStrength = 0],
    every input sample whose amplitude lies in [preservationThreshold, 0.8]
    and is not below [noiseThreshold] is passed to the output unchanged,
    whatever [reductionStrength] and the neighbouring samples are. *)
Theorem pass_through_band
    (p : AudioRecorder.Params Q) (inputData : list Q) (i : nat) :
  AudioRecorder.highPassStrength p == 0 ->
  (i < length inputData)%nat ->
  AudioRecorder.noiseThreshold p <= Qabs (nth i inputData 0) ->
  AudioRecorder.preservationThreshold p <= Qabs (nth i inputData 0) ->
  Qabs (nth i inputData 0) <= 0.8 ->
  nth i (AudioRecorder.processAudioWithRNNoise p inputData) 0 == nth i inputData 0.
Proof.
  intros Hhp Hi Hnt Hpt Hmax.
  rewrite nth_processAudioWithRNNoise by exact Hi. simpl fround.
  rewrite processSample_steps.
  destruct (noiseGate_cases p (nth i inputData 0)) as (_ & _ & Hgate).
  rewrite (Hgate (conj Hnt Hpt)).
  destruct (highPass_cases p inputData i (nth i inputData 0)) as (_ & Hskip).
  rewrite Hskip by (right; lra).
  destruct (preserveDynamics_cases p (Qabs (nth i inputData 0)) (nth i inputData 0))
    as (_ & Hoff).
  rewrite Hoff by (right; exact Hmax).
  reflexivity.
Qed.

Lemma pass_through_band_witness :
  nth 1 (AudioRecorder.processAudioWithRNNoise Examples.Crossed [0.9; 0.5; -0.001]) 0
  == 0.5.
Proof.
  apply (pass_through_band Examples.Crossed [0.9; 0.5; -0.001] 1).
  - reflexivity.
  - simpl; lia.
  - vm_compute; discriminate.
  - vm_compute; discriminate.
  - vm_compute; discriminate.
Defined.

(** C10, as stated, fails: the noise threshold matters.  With the filter off,
    [noiseThreshold = 0.020] and [preservationThreshold = 0.010], an input
    sample of 0.015 lies in [preservationThreshold, 0.8] and comes out as
    0.0045. *)
Lemma pass_through_band_needs_noise_threshold :
  AudioRecorder.highPassStrength Examples.Crossed == 0
  /\ AudioRecorder.preservationThreshold Examples.Crossed <= Qabs 0.015
  /\ Qabs 0.015 <= 0.8
  /\ nth 0 (AudioRecorder.processAudioWithRNNoise Examples.Crossed [0.015]) 0 == 0.0045
  /\ ~ nth 0 (AudioRecorder.processAudioWithRNNoise Examples.Crossed [0.015]) 0
       == nth 0 [0.015] 0.
Proof.
  repeat split; try (vm_compute; reflexivity); vm_compute; discriminate.
Qed.

(** ** Silence *)

Lemma nth_zero (l : list Q) (i : nat) :
  Forall (fun x => x == 0) l -> nth i l 0 == 0.
Proof.
  intro Hl. revert i; induction Hl as [|x l Hx Hl IH]; intros [|i]; simpl;
    try reflexivity; [ exact Hx | apply IH ].
Qed.

Lemma reduceSample_zero (vt nt intensity sample : Q) :
  sample == 0 -> Audio.reduceSample vt nt intensity sample == 0.
Proof.
  intro Hs. unfold Audio.reduceSample; simpl.
  destruct (QNum.ltb vt (Qabs sample)); [ | destruct (QNum.ltb nt (Qabs sample)) ];
    rewrite Hs; ring.
Qed.

Lemma processSample_zero (p : AudioRecorder.Params Q) (inputData : list Q) (i : nat) :
  Forall (fun x => x == 0) inputData ->
  AudioRecorder.processSample p inputData i == 0.
Proof.
  intro Hl. rewrite processSample_steps.
  pose proof (nth_zero inputData i Hl) as Hs.
  pose proof (nth_zero inputData (i - 1) Hl) as Hprev.
  set (sample := nth i inputData 0) in *.
  assert (Ha : Qabs sample == 0) by (rewrite Hs; reflexivity).
  assert (Hg : AudioRecorder.noiseGate p (Qabs sample) sample == 0).
  { unfold AudioRecorder.noiseGate; simpl.
    destruct (QNum.ltb (Qabs sample) (AudioRecorder.noiseThreshold p));
      [ | destruct (QNum.ltb (Qabs sample) (AudioRecorder.preservationThreshold p)) ];
      rewrite ?Hs; try ring; exact Hs. }
  set (gated := AudioRecorder.noiseGate p (Qabs sample) sample) in *.
  assert (Hf : AudioRecorder.highPass p inputData i gated == 0).
  { unfold AudioRecorder.highPass; simpl.
    destruct ((0 <? i)%nat && QNum.ltb 0 (AudioRecorder.highPassStrength p)).
    - rewrite Hg, Hprev. ring.
    - exact Hg. }
  destruct (preserveDynamics_cases p (Qabs sample)
              (AudioRecorder.highPass p inputData i gated)) as (_ & Hoff).
  rewrite Hoff by (right; lra). exact Hf.
Qed.

(** C7.  For every intensity and for every setting of the four explicit
    parameters, an all-zero input buffer gives an all-zero output buffer of
    the same length, in both modes. *)
Theorem silence_in_silence_out (inputData : list Q) :
  Forall (fun x => x == 0) inputData ->
  (forall intensity : Q,
     length (Audio.processFloat32Array inputData intensity) = length inputData
     /\ Forall (fun y => y == 0) (Audio.processFloat32Array inputData intensity))
  /\ (forall p : AudioRecorder.Params Q,
        length (AudioRecorder.processAudioWithRNNoise p inputData) = length inputData
        /\ Forall (fun y => y == 0) (AudioRecorder.processAudioWithRNNoise p inputData)).
Proof.
  intro Hl. split.
  - intro intensity. split; [ apply length_processFloat32Array | ].
    unfold Audio.processFloat32Array. apply Forall_map.
    apply (Forall_impl _ (P := fun x => x == 0)); [ | exact Hl ].
    intros x Hx. simpl fround. apply reduceSample_zero, Hx.
  - intro p. split; [ apply length_processAudioWithRNNoise | ].
    unfold AudioRecorder.processAudioWithRNNoise. apply Forall_map.
    apply Forall_forall. intros i _. simpl fround.
    apply processSample_zero, Hl.
Qed.

Lemma silence_in_silence_out_witness :
  (length (Audio.processFloat32Array (repeat 0 4) 0.5) = 4%nat
   /\ Forall (fun y => y == 0) (Audio.processFloat32Array (repeat 0 4) 0.5))
  /\ (length (AudioRecorder.processAudioWithRNNoise Examples.Balanced (repeat 0 4))
      = 4%nat
      /\ Forall (fun y => y == 0)
           (AudioRecorder.processAudioWithRNNoise Examples.Balanced (repeat 0 4))).
Proof.
  assert (Hzero : Forall (fun x => x == 0) (repeat 0 4)).
  { apply Forall_forall. intros x Hx. apply repeat_spec in Hx. rewrite Hx. reflexivity. }
  assert (Hlen : length (repeat 0 4) = 4%nat) by apply repeat_length.
  destruct (silence_in_silence_out (repeat 0 4) Hzero) as (Hadaptive & Hexplicit).
  split.
  - rewrite <- Hlen at 2. apply Hadaptive.
  - rewrite <- Hlen at 2. apply Hexplicit.
Defined.

(** ** The WAV container *)

Section Writes.
Import DataView.

Lemma length_le_bytes (n : nat) (z : Z) : length (le_bytes n z) = n.
Proof. revert z; induction n as [|n IH]; intro z; simpl; [ | rewrite IH ]; reflexivity. Qed.

Lemma land_255 (z : Z) : Z.land z 255 = (z mod 256)%Z.
Proof. change 255%Z with (Z.ones 8). rewrite Z.land_ones by lia. reflexivity. Qed.

Lemma le_bytes_range (n : nat) (z : Z) :
  Forall (fun b => (0 <= b < 256)%Z) (le_bytes n z).
Proof.
  revert z; induction n as [|n IH]; intro z; simpl; constructor.
  - rewrite land_255. apply Z.mod_pos_bound. lia.
  - apply IH.
Qed.

Lemma le_combine_le_bytes_2 (z : Z) :
  le_combine (le_bytes 2 z) = (z mod 65536)%Z.
Proof.
  cbn [le_bytes le_combine]. rewrite !land_255, Z.shiftr_div_pow2 by lia.
  change (2 ^ 8)%Z with 256%Z.
  change 65536%Z with (256 * 256)%Z.
  rewrite (Z.rem_mul_r z 256 256) by lia. lia.
Qed.

(** A write at the frontier between the bytes already written and the
    zeros that follow them. *)
Lemma setBytes_frontier (done bytes : list byte) (offset m : nat) :
  offset = length done ->
  (length bytes <= m)%nat ->
  setBytes (done ++ repeat 0%Z m) offset bytes
  = Some ((done ++ bytes) ++ repeat 0%Z (m - length bytes)).
Proof.
  intros -> Hfit. unfold setBytes.
  rewrite length_app, repeat_length.
  destruct (Nat.leb_spec (length done + length bytes) (length done + m)) as [_|Hno];
    [ | lia ].
  rewrite firstn_app, Nat.sub_diag, firstn_all, app_nil_r; simpl firstn.
  rewrite skipn_app, skipn_all2 by lia. simpl app.
  replace (length done + length bytes - length done)%nat with (length bytes) by lia.
  assert (Hskip : forall k n, (k <= n)%nat ->
            skipn k (repeat 0%Z n) = repeat 0%Z (n - k)).
  { induction k as [|k IH]; intros [|n] Hk; simpl; try reflexivity; try lia.
    apply IH. lia. }
  rewrite Hskip by exact Hfit. now rewrite <- app_assoc.
Qed.

Lemma writeString_frontier (s : string) (done : list byte) (offset m : nat) :
  offset = length done ->
  (String.length s <= m)%nat ->
  Wav.writeString (done ++ repeat 0%Z m) offset s
  = Some ((done ++ map (fun c => Z.land (Wav.charCode c) 255) (list_ascii_of_string s))
            ++ repeat 0%Z (m - String.length s)).
Proof.
  revert done offset m; induction s as [|c s IH]; intros done offset m Hoff Hfit; simpl.
  - now rewrite Nat.sub_0_r, app_nil_r.
  - simpl in Hfit. unfold setUint8.
    rewrite setBytes_frontier by (simpl; trivial; lia). simpl bind.
    rewrite IH.
    + replace (m - 1 - String.length s)%nat with (m - S (String.length s))%nat by lia.
      f_equal. f_equal. now rewrite <- app_assoc.
    + rewrite length_app. simpl. lia.
    + simpl. lia.
Qed.

End Writes.

Section WavFacts.
Context {num : Type} `{JSNumber num}.
Import DataView.

Lemma writeSamples_frontier (audioData : list num) (done : list byte) (offset m : nat) :
  offset = length done ->
  m = (2 * length audioData)%nat ->
  Wav.writeSamples (done ++ repeat 0%Z m) offset audioData
  = Some (done ++ flat_map (fun x => le_bytes 2 (Wav.pcm16 x)) audioData).
Proof.
  revert done offset m; induction audioData as [|x rest IH];
    intros done offset m Hoff Hm; simpl in *.
  - subst m. simpl. reflexivity.
  - unfold setInt16. rewrite setBytes_frontier by (simpl; trivial; lia). simpl bind.
    rewrite IH.
    + now rewrite <- app_assoc.
    + rewrite length_app. simpl. lia.
    + simpl. lia.
Qed.

Lemma length_flat_map_pcm (audioData : list num) :
  length (flat_map (fun x => le_bytes 2 (Wav.pcm16 x)) audioData)
  = (2 * length audioData)%nat.
Proof.
  induction audioData as [|x rest IH]; cbn [flat_map]; [ reflexivity | ].
  rewrite length_app, length_le_bytes, IH. simpl. lia.
Qed.

Lemma tag_land (s : string) :
  map (fun c => Z.land (Wav.charCode c) 255) (list_ascii_of_string s) = Design.tag s.
Proof.
  unfold Design.tag. apply map_ext. intro c.
  rewrite land_255. apply Z.mod_small.
  unfold Wav.charCode. pose proof (N_ascii_bounded c). lia.
Qed.

Lemma bind_Some {A B : Type} (a : A) (k : A -> option B) : bind (Some a) k = k a.
Proof. reflexivity. Qed.

Ltac frontier_side :=
  first [ reflexivity
        | rewrite ?length_le_bytes; cbv [String.length]; lia ].

Ltac frontier_step :=
  first [ rewrite writeString_frontier by frontier_side
        | rewrite setBytes_frontier by frontier_side ];
  rewrite bind_Some; cbv beta.

Lemma float32ArrayToWavBlob_layout (audioData : list num) (sampleRate : Z) :
  Wav.float32ArrayToWavBlob audioData sampleRate
  = Some {| blobBytes := Design.wavLayout sampleRate (map Wav.pcm16 audioData);
            blobType := "audio/wav" |}.
Proof.
  unfold Wav.float32ArrayToWavBlob, ArrayBuffer, setUint32, setUint16.
  change (repeat 0%Z (44 + length audioData * 2))
    with ([] ++ repeat 0%Z (44 + length audioData * 2)).
  do 13 frontier_step.
  rewrite writeSamples_frontier;
    [ | reflexivity | rewrite !length_le_bytes; cbv [String.length]; lia ].
  rewrite bind_Some; cbv beta. do 2 f_equal.
  unfold Design.wavLayout. rewrite length_map, !tag_land.
  rewrite flat_map_concat_map, <- (map_map Wav.pcm16 (le_bytes 2)),
    <- flat_map_concat_map.
  replace (Z.of_nat (length audioData * 2)) with (Z.of_nat (length audioData) * 2)%Z
    by lia.
  change (1 * Z.of_nat 2)%Z with 2%Z.
  repeat rewrite <- app_assoc.
  reflexivity.
Qed.

End WavFacts.

Lemma tag_range (s : string) :
  Forall (fun b => (0 <= b < 256)%Z) (Design.tag s).
Proof.
  unfold Design.tag. apply Forall_map, Forall_forall. intros c _.
  unfold Wav.charCode. pose proof (N_ascii_bounded c). lia.
Qed.

Lemma wavLayout_range (sampleRate : Z) (samples : list Z) :
  Forall (fun b => (0 <= b < 256)%Z) (Design.wavLayout sampleRate samples).
Proof.
  unfold Design.wavLayout.
  repeat (apply Forall_app; split);
    try apply tag_range; try apply le_bytes_range.
  apply Forall_flat_map, Forall_forall. intros z _. apply le_bytes_range.
Qed.

Lemma length_wavLayout (sampleRate : Z) (samples : list Z) :
  length (Design.wavLayout sampleRate samples) = (44 + 2 * length samples)%nat.
Proof.
  unfold Design.wavLayout. repeat rewrite length_app.
  repeat rewrite length_le_bytes.
  assert (Hdata : length (flat_map (DataView.le_bytes 2) samples)
                  = (2 * length samples)%nat).
  { induction samples as [|z rest IH]; cbn [flat_map]; [ reflexivity | ].
    rewrite length_app, length_le_bytes, IH. simpl. lia. }
  rewrite Hdata. simpl. lia.
Qed.

(** C6.  For every buffer of [n] samples and every sample rate, the encoder
    returns a blob (no write is out of range), whose bytes are: "RIFF", the
    little-endian u32 [36 + 2n], "WAVE", "fmt ", the u32 16, the u16 1
    (PCM), the u16 1 (mono), the u32 sample rate, the u32 byte rate
    [sampleRate * 2], the u16 block align 2, the u16 16, "data", the u32
    data size [2n], and then the [2n] bytes of the samples.  The length is
    [44 + 2n]: 96044 bytes for 48000 samples. *)
Theorem wav_container_layout {num : Type} `{JSNumber num}
    (audioData : list num) (sampleRate : Z) :
  exists blob : Blob,
    Wav.float32ArrayToWavBlob audioData sampleRate = Some blob
    /\ blobBytes blob = Design.wavLayout sampleRate (map Wav.pcm16 audioData)
    /\ Forall (fun b => (0 <= b < 256)%Z) (blobBytes blob)
    /\ Z.of_nat (length (blobBytes blob)) = (44 + 2 * Z.of_nat (length audioData))%Z
    /\ DataView.slice (blobBytes blob) 0 4 = Design.tag "RIFF"
    /\ DataView.slice (blobBytes blob) 4 4
       = DataView.le_bytes 4 (36 + Z.of_nat (length audioData) * 2)
    /\ DataView.slice (blobBytes blob) 8 4 = Design.tag "WAVE"
    /\ DataView.slice (blobBytes blob) 12 4 = Design.tag "fmt "
    /\ DataView.slice (blobBytes blob) 16 4 = DataView.le_bytes 4 16
    /\ DataView.slice (blobBytes blob) 20 2 = DataView.le_bytes 2 1
    /\ DataView.slice (blobBytes blob) 22 2 = DataView.le_bytes 2 1
    /\ DataView.slice (blobBytes blob) 24 4 = DataView.le_bytes 4 sampleRate
    /\ DataView.slice (blobBytes blob) 28 4 = DataView.le_bytes 4 (sampleRate * 2)
    /\ DataView.slice (blobBytes blob) 32 2 = DataView.le_bytes 2 2
    /\ DataView.slice (blobBytes blob) 34 2 = DataView.le_bytes 2 16
    /\ DataView.slice (blobBytes blob) 36 4 = Design.tag "data"
    /\ DataView.slice (blobBytes blob) 40 4
       = DataView.le_bytes 4 (Z.of_nat (length audioData) * 2)
    /\ skipn 44 (blobBytes blob)
       = flat_map (DataView.le_bytes 2) (map Wav.pcm16 audioData)
    /\ (Z.of_nat (length audioData) = 48000%Z ->
        Z.of_nat (length (blobBytes blob)) = 96044%Z).
Proof.
  eexists. split; [ apply float32ArrayToWavBlob_layout | ].
  cbn [blobBytes].
  assert (Hlen : Z.of_nat (length (Design.wavLayout sampleRate (map Wav.pcm16 audioData)))
                 = (44 + 2 * Z.of_nat (length audioData))%Z).
  { rewrite length_wavLayout, length_map. lia. }
  split; [ reflexivity | ].
  split; [ apply wavLayout_range | ].
  split; [ exact Hlen | ].
  rewrite <- (length_map Wav.pcm16 audioData) at 1 2.
  repeat (split; [ reflexivity | ]).
  intro Hn. rewrite Hlen, Hn. reflexivity.
Qed.

Lemma wav_container_layout_witness :
  exists blob : Blob,
    Wav.float32ArrayToWavBlob (repeat 0 (Z.to_nat 48000)) 48000 = Some blob
    /\ Z.of_nat (length (blobBytes blob)) = 96044%Z.
Proof.
  destruct (wav_container_layout (repeat 0 (Z.to_nat 48000)) 48000)
    as (blob & Hblob & Hrest).
  exists blob. split; [ exact Hblob | ].
  apply Hrest. rewrite repeat_length. apply Z2Nat.id. lia.
Defined.

(** ** Quantisation to 16 bits *)

Lemma clamp_cases (x : Q) :
  -1 <= Wav.clamp x <= 1
  /\ (x <= -1 -> Wav.clamp x == -1)
  /\ (1 <= x -> Wav.clamp x == 1)
  /\ (-1 <= x <= 1 -> Wav.clamp x == x).
Proof.
  unfold Wav.clamp; simpl. unfold QNum.max, QNum.min.
  case_ltb x 1.
  - case_ltb (-1) x; repeat split; intros; try reflexivity; lra.
  - case_ltb (-1) 1; repeat split; intros; try reflexivity; lra.
Qed.

Lemma intSample_cases (c : Q) :
  (c < 0 -> Wav.intSample c == c * 32768)
  /\ (0 <= c -> Wav.intSample c == c * 32767).
Proof.
  unfold Wav.intSample; simpl.
  case_ltb c 0; split; intros; try reflexivity; exfalso; lra.
Qed.

Lemma trunc_bounds (q : Q) (lo hi : Z) :
  (lo <= 0 <= hi)%Z -> inject_Z lo <= q -> q <= inject_Z hi ->
  (lo <= QNum.trunc q <= hi)%Z.
Proof.
  destruct q as [n d]. unfold Qle, QNum.trunc; simpl.
  intros Hz Hlo Hhi. rewrite Z.mul_1_r in Hlo, Hhi.
  destruct (Z.le_gt_cases 0 n) as [Hn|Hn].
  - rewrite Z.quot_div_nonneg by lia. split.
    + pose proof (Z.div_pos n (Zpos d)). lia.
    + apply Z.div_le_upper_bound; lia.
  - replace n with (- - n)%Z by lia.
    rewrite Z.quot_opp_l, Z.quot_div_nonneg by lia. split.
    + assert (- n / Zpos d <= - lo)%Z by (apply Z.div_le_upper_bound; lia). lia.
    + pose proof (Z.div_pos (- n) (Zpos d)). lia.
Qed.

Lemma pcm16_range (x : Q) : (-32768 <= Wav.pcm16 x <= 32767)%Z.
Proof.
  unfold Wav.pcm16. simpl ToInteger.
  destruct (clamp_cases x) as ((Hlo & Hhi) & _).
  destruct (intSample_cases (Wav.clamp x)) as (Hneg & Hpos).
  apply trunc_bounds; [ lia | | ];
    change (inject_Z (-32768)) with (-32768)%Q;
    change (inject_Z 32767) with 32767%Q;
    destruct (Qlt_le_dec (Wav.clamp x) 0) as [Hc|Hc];
    rewrite ?(Hneg Hc), ?(Hpos Hc); lra.
Qed.

Lemma getInt16_le_bytes (z : Z) (rest : list DataView.byte) :
  (-32768 <= z <= 32767)%Z ->
  DataView.getInt16 (DataView.le_bytes 2 z ++ rest) 0 = z.
Proof.
  intro Hz. unfold DataView.getInt16, DataView.slice.
  change (firstn 2 (skipn 0 (DataView.le_bytes 2 z ++ rest)))
    with (DataView.le_bytes 2 z).
  rewrite le_combine_le_bytes_2.
  destruct (Z.le_gt_cases 0 z) as [Hs|Hs].
  - rewrite Z.mod_small by lia.
    destruct (Z.ltb_spec z 32768); lia.
  - replace (z mod 65536)%Z with (z + 65536)%Z.
    + destruct (Z.ltb_spec (z + 65536) 32768); lia.
    + apply (Z.mod_unique_pos z 65536 (-1)); lia.
Qed.

Lemma getInt16_samples (samples : list Z) (i : nat) (z : Z) :
  nth_error samples i = Some z ->
  (-32768 <= z <= 32767)%Z ->
  DataView.getInt16 (flat_map (DataView.le_bytes 2) samples) (2 * i) = z.
Proof.
  revert i; induction samples as [|s rest IH]; intros [|i] E Hz;
    simpl in E; try discriminate E.
  - inversion E; subst s. cbn [flat_map Nat.mul]. now apply getInt16_le_bytes.
  - replace (2 * S i)%nat with (S (S (2 * i))) by lia.
    rewrite <- (IH i E Hz). reflexivity.
Qed.

Lemma getInt16_wavLayout (sampleRate : Z) (samples : list Z) (k : nat) :
  DataView.getInt16 (Design.wavLayout sampleRate samples) (44 + k)
  = DataView.getInt16 (flat_map (DataView.le_bytes 2) samples) k.
Proof. reflexivity. Qed.

(** C2.  On exact arithmetic, every sample is first clamped to [-1, 1];
    the clamped value is multiplied by 32768 where it is negative and by
    32767 otherwise; the product, cut to an integer, lies in
    [-32768, 32767] and is what a signed little-endian 16-bit read finds at
    byte [44 + 2i] of the container.  The buffer [1.0, -1.0] is stored as
    32767 and -32768, on exact arithmetic and on binary64 alike. *)
Theorem pcm16_quantization :
  (forall (audioData : list Q) (sampleRate : Z) (i : nat) (x : Q),
     nth_error audioData i = Some x ->
     (-1 <= Wav.clamp x <= 1
      /\ (x <= -1 -> Wav.clamp x == -1)
      /\ (1 <= x -> Wav.clamp x == 1)
      /\ (-1 <= x <= 1 -> Wav.clamp x == x))
     /\ (Wav.clamp x < 0 -> Wav.intSample (Wav.clamp x) == Wav.clamp x * 32768)
     /\ (0 <= Wav.clamp x -> Wav.intSample (Wav.clamp x) == Wav.clamp x * 32767)
     /\ Wav.pcm16 x = QNum.trunc (Wav.intSample (Wav.clamp x))
     /\ (-32768 <= Wav.pcm16 x <= 32767)%Z
     /\ exists blob : Blob,
          Wav.float32ArrayToWavBlob audioData sampleRate = Some blob
          /\ DataView.slice (blobBytes blob) (44 + 2 * i) 2
             = DataView.le_bytes 2 (Wav.pcm16 x)
          /\ DataView.getInt16 (blobBytes blob) (44 + 2 * i) = Wav.pcm16 x)
  /\ (exists blob : Blob,
        Wav.float32ArrayToWavBlob [1.0; -1.0] Audio.SAMPLE_RATE = Some blob
        /\ DataView.getInt16 (blobBytes blob) 44 = 32767%Z
        /\ DataView.getInt16 (blobBytes blob) 46 = (-32768)%Z)
  /\ (exists blob : Blob,
        Wav.float32ArrayToWavBlob [B64.of_Q 1.0; B64.of_Q (-1.0)] Audio.SAMPLE_RATE
        = Some blob
        /\ DataView.getInt16 (blobBytes blob) 44 = 32767%Z
        /\ DataView.getInt16 (blobBytes blob) 46 = (-32768)%Z).
Proof.
  split; [ | split ].
  - intros audioData sampleRate i x E.
    destruct (intSample_cases (Wav.clamp x)) as (Hneg & Hpos).
    pose proof (pcm16_range x) as Hrange.
    split; [ apply clamp_cases | ].
    split; [ exact Hneg | ]. split; [ exact Hpos | ].
    split; [ reflexivity | ]. split; [ exact Hrange | ].
    eexists. split; [ apply float32ArrayToWavBlob_layout | ].
    cbn [blobBytes].
    assert (Eint : nth_error (map Wav.pcm16 audioData) i = Some (Wav.pcm16 x))
      by (rewrite nth_error_map, E; reflexivity).
    assert (Hread : DataView.getInt16
                      (Design.wavLayout sampleRate (map Wav.pcm16 audioData))
                      (44 + 2 * i) = Wav.pcm16 x)
      by (rewrite getInt16_wavLayout; now apply getInt16_samples).
    split; [ | exact Hread ].
    change (DataView.slice (Design.wavLayout sampleRate (map Wav.pcm16 audioData))
              (44 + 2 * i) 2)
      with (DataView.slice (flat_map (DataView.le_bytes 2) (map Wav.pcm16 audioData))
              (2 * i) 2).
    clear Hread. revert i E Eint.
    generalize (Wav.pcm16 x) as z. generalize (map Wav.pcm16 audioData) as samples.
    clear. intros samples z i _. revert i.
    induction samples as [|s rest IH]; intros [|i] Eint;
      simpl in Eint; try discriminate Eint.
    + inversion Eint; subst s. reflexivity.
    + replace (2 * S i)%nat with (S (S (2 * i))) by lia.
      rewrite <- (IH i Eint). reflexivity.
  - eexists. split; [ vm_compute; reflexivity | split; vm_compute; reflexivity ].
  - eexists. split; [ vm_compute; reflexivity | split; vm_compute; reflexivity ].
Qed.

Lemma pcm16_quantization_witness :
  (Wav.clamp 2.5 == 1 /\ Wav.clamp (-0.25) == -0.25)
  /\ Wav.intSample (Wav.clamp (-0.25)) == -0.25 * 32768
  /\ Wav.intSample (Wav.clamp 2.5) == 1 * 32767
  /\ exists blob : Blob,
       Wav.float32ArrayToWavBlob [2.5; -0.25] Audio.SAMPLE_RATE = Some blob
       /\ DataView.getInt16 (blobBytes blob) 46 = (-8192)%Z.
Proof.
  destruct pcm16_quantization as (Hgen & _).
  destruct (Hgen [2.5; -0.25] Audio.SAMPLE_RATE 0%nat 2.5 eq_refl)
    as ((_ & _ & Hhi & _) & _ & Hpos & _).
  destruct (Hgen [2.5; -0.25] Audio.SAMPLE_RATE 1%nat (-0.25) eq_refl)
    as ((_ & _ & _ & Hin) & Hneg & _ & _ & _ & blob & Hblob & _ & Hread).
  split; [ split | split; [ | split ] ].
  - apply Hhi. vm_compute; discriminate.
  - apply Hin. split; vm_compute; discriminate.
  - apply Hneg. vm_compute; reflexivity.
  - rewrite Hpos by (vm_compute; discriminate).
    rewrite Hhi by (vm_compute; discriminate). reflexivity.
  - exists blob. split; [ exact Hblob | exact Hread ].
Defined.

(** ** Non-finite samples on binary64 *)

Lemma SFltb_nan_l (y : spec_float) : SFltb S754_nan y = false.
Proof. reflexivity. Qed.

Lemma SFltb_nan_r (x : spec_float) : SFltb x S754_nan = false.
Proof. destruct x; reflexivity. Qed.

Lemma SFmul_nan_l (y : spec_float) : SFmul B64.prec B64.emax S754_nan y = S754_nan.
Proof. reflexivity. Qed.

Lemma SFsub_nan_l (y : spec_float) : SFsub B64.prec B64.emax S754_nan y = S754_nan.
Proof. reflexivity. Qed.

Lemma reduceSample_nan (vt nt intensity : spec_float) :
  Audio.reduceSample vt nt intensity S754_nan = S754_nan.
Proof.
  unfold Audio.reduceSample; simpl.
  rewrite !SFltb_nan_r. reflexivity.
Qed.

Lemma processSample_nan (p : AudioRecorder.Params spec_float)
    (inputData : list spec_float) (i : nat) :
  nth_error inputData i = Some S754_nan ->
  AudioRecorder.processSample p inputData i = S754_nan.
Proof.
  intro E. unfold AudioRecorder.processSample.
  replace (nth i inputData (lit 0)) with S754_nan
    by (symmetry; now apply nth_error_nth).
  cbn [Math_abs IEEE SFabs].
  assert (Hgate : AudioRecorder.noiseGate p S754_nan S754_nan = S754_nan)
    by reflexivity.
  rewrite Hgate.
  assert (Hfilter : AudioRecorder.highPass p inputData i S754_nan = S754_nan).
  { unfold AudioRecorder.highPass.
    destruct ((0 <? i)%nat && (lit 0 <? AudioRecorder.highPassStrength p)%js);
      reflexivity. }
  rewrite Hfilter.
  unfold AudioRecorder.preserveDynamics. cbn [lt IEEE].
  rewrite SFltb_nan_r. reflexivity.
Qed.

(** C4, as the code has it.  In both modes the engine returns, for every
    input buffer, an output buffer of the same length: no step of it can
    raise, on finite and on non-finite input alike.  Non-finite samples are
    not replaced by zero: on binary64 a NaN input sample gives a NaN output
    sample at the same index, in both modes. *)
Theorem non_finite_samples_pass_unsanitised :
  (forall (inputData : list spec_float) (intensity : spec_float),
     length (Audio.processFloat32Array inputData intensity) = length inputData)
  /\ (forall (p : AudioRecorder.Params spec_float) (inputData : list spec_float),
        length (AudioRecorder.processAudioWithRNNoise p inputData) = length inputData)
  /\ (forall (inputData : list spec_float) (intensity : spec_float) (i : nat),
        nth_error inputData i = Some S754_nan ->
        nth_error (Audio.processFloat32Array inputData intensity) i = Some S754_nan)
  /\ (forall (p : AudioRecorder.Params spec_float) (inputData : list spec_float) (i : nat),
        nth_error inputData i = Some S754_nan ->
        nth_error (AudioRecorder.processAudioWithRNNoise p inputData) i = Some S754_nan).
Proof.
  split; [ | split; [ | split ] ].
  - intros. apply length_processFloat32Array.
  - intros. apply length_processAudioWithRNNoise.
  - intros inputData intensity i E. unfold Audio.processFloat32Array.
    rewrite nth_error_map, E. cbn [option_map].
    rewrite reduceSample_nan. reflexivity.
  - intros p inputData i E.
    assert (Hi : (i < length inputData)%nat)
      by (apply nth_error_Some; rewrite E; discriminate).
    unfold AudioRecorder.processAudioWithRNNoise.
    rewrite nth_error_map.
    replace (nth_error (seq 0 (length inputData)) i) with (Some i).
    + cbn [option_map]. rewrite (processSample_nan p inputData i E). reflexivity.
    + symmetry. rewrite (nth_error_nth' _ 0%nat) by (now rewrite length_seq).
      now rewrite seq_nth.
Qed.

Lemma non_finite_samples_pass_unsanitised_witness :
  nth_error (Audio.processFloat32Array Examples.corruptBuffer (B64.of_Q 0.5)) 1
  = Some S754_nan
  /\ nth_error (AudioRecorder.processAudioWithRNNoise Examples.Balanced
                  Examples.corruptBuffer) 1
     = Some S754_nan.
Proof.
  destruct non_finite_samples_pass_unsanitised as (_ & _ & Hadaptive & Hexplicit).
  split.
  - apply Hadaptive. reflexivity.
  - apply Hexplicit. reflexivity.
Defined.

(** C4, as stated, fails: there is no guard.  In the buffer [0.5, NaN, 0.25]
    the corrupt sample comes out as NaN in both modes, where a zero in its
    place comes out as a zero.  It also reaches its neighbours: in adaptive
    mode it turns both thresholds into NaN, so that the sample 0.5 is
    attenuated where the repaired buffer has it boosted, and in explicit
    mode the filter carries it into the next output sample. *)
Lemma corrupt_sample_propagates :
  map Design.zeroNonFinite Examples.corruptBuffer = Examples.repairedBuffer
  /\ nth_error (Audio.processFloat32Array Examples.corruptBuffer (B64.of_Q 0.5)) 1
     = Some S754_nan
  /\ nth_error (Audio.processFloat32Array Examples.repairedBuffer (B64.of_Q 0.5)) 1
     = Some (S754_zero false)
  /\ Audio.voiceThreshold Examples.corruptBuffer (B64.of_Q 0.5) = S754_nan
  /\ nth_error (Audio.processFloat32Array Examples.corruptBuffer (B64.of_Q 0.5)) 0
     <> nth_error (Audio.processFloat32Array Examples.repairedBuffer (B64.of_Q 0.5)) 0
  /\ Audio.processFloat32Array Examples.corruptBuffer (B64.of_Q 0.5)
     <> Audio.processFloat32Array (map Design.zeroNonFinite Examples.corruptBuffer)
          (B64.of_Q 0.5)
  /\ nth_error (AudioRecorder.processAudioWithRNNoise Examples.Balanced
                  Examples.corruptBuffer) 1
     = Some S754_nan
  /\ nth_error (AudioRecorder.processAudioWithRNNoise Examples.Balanced
                  Examples.corruptBuffer) 2
     = Some S754_nan
  /\ AudioRecorder.processAudioWithRNNoise Examples.Balanced Examples.corruptBuffer
     <> AudioRecorder.processAudioWithRNNoise Examples.Balanced
          (map Design.zeroNonFinite Examples.corruptBuffer).
Proof.
  repeat split; try (vm_compute; reflexivity); vm_compute; discriminate.
Qed.

(** ** The length of a resampled buffer *)

Lemma trunc_inject_Z (z : Z) : QNum.trunc (inject_Z z) = z.
Proof. unfold QNum.trunc; simpl. apply Z.quot_1_r. Qed.

Lemma Qceiling_ratio (len : Z) (r : positive) :
  Qceiling (inject_Z len * (inject_Z Audio.SAMPLE_RATE / inject_Z (Zpos r)))
  = Design.resampledLength len (Zpos r).
Proof.
  unfold Qceiling, Design.resampledLength. reflexivity.
Qed.

Lemma decodeAndResample_resamples {num : Type} `{JSNumber num}
    (decodeAudioData : list DataView.byte -> option (AudioBuffer.t num))
    (startRendering : AudioBuffer.t num -> nat -> Z -> list num)
    (blob : Blob) (audioBuffer : AudioBuffer.t num) :
  decodeAudioData (blobBytes blob) = Some audioBuffer ->
  AudioBuffer.sampleRate audioBuffer <> Audio.SAMPLE_RATE ->
  Resample.decodeAndResampleToFloat32 decodeAudioData startRendering blob
  = Some (startRendering audioBuffer
            (Z.to_nat (ToInteger (Resample.lengthInSamples audioBuffer)))
            Audio.SAMPLE_RATE).
Proof.
  intros Hdecode Hrate. unfold Resample.decodeAndResampleToFloat32.
  rewrite Hdecode. cbn [bind].
  destruct (Z.eqb_spec (AudioBuffer.sampleRate audioBuffer) Audio.SAMPLE_RATE);
    [ contradiction | reflexivity ].
Qed.

(** C8, as the code has it.  When the decoded rate differs from 48000 Hz,
    and the offline renderer returns as many frames as it is asked for,
    normalization produces a buffer of exactly
    [ceil(originalLength * (48000 / nativeRate))] samples, the quotient
    taken first and both operations in the arithmetic of the engine.  On
    exact arithmetic this is [ceil(originalLength * 48000 / nativeRate)];
    on binary64 a 100-sample buffer at 44100 Hz resamples to exactly 109
    samples. *)
Theorem resampled_length :
  (forall (num : Type) (JS : JSNumber num)
          (decodeAudioData : list DataView.byte -> option (AudioBuffer.t num))
          (startRendering : AudioBuffer.t num -> nat -> Z -> list num)
          (blob : Blob) (audioBuffer : AudioBuffer.t num),
     (forall source len rate, length (startRendering source len rate) = len) ->
     decodeAudioData (blobBytes blob) = Some audioBuffer ->
     AudioBuffer.sampleRate audioBuffer <> Audio.SAMPLE_RATE ->
     exists out : list num,
       Resample.decodeAndResampleToFloat32 decodeAudioData startRendering blob = Some out
       /\ length out
          = Z.to_nat
              (ToInteger
                 (Math_ceil
                    (mul (of_nat (AudioBuffer.length audioBuffer))
                       (div (of_Z Audio.SAMPLE_RATE)
                          (of_Z (AudioBuffer.sampleRate audioBuffer)))))))
  /\ (forall (decodeAudioData : list DataView.byte -> option (AudioBuffer.t Q))
             (startRendering : AudioBuffer.t Q -> nat -> Z -> list Q)
             (blob : Blob) (audioBuffer : AudioBuffer.t Q),
        (forall source len rate, length (startRendering source len rate) = len) ->
        decodeAudioData (blobBytes blob) = Some audioBuffer ->
        AudioBuffer.sampleRate audioBuffer <> Audio.SAMPLE_RATE ->
        (0 < AudioBuffer.sampleRate audioBuffer)%Z ->
        exists out : list Q,
          Resample.decodeAndResampleToFloat32 decodeAudioData startRendering blob
          = Some out
          /\ Z.of_nat (length out)
             = Design.resampledLength (Z.of_nat (AudioBuffer.length audioBuffer))
                 (AudioBuffer.sampleRate audioBuffer))
  /\ option_map (@length spec_float)
       (Resample.decodeAndResampleToFloat32
          (Examples.silentDecoder 44100 100) Examples.silentRenderer Examples.emptyBlob)
     = Some 109%nat.
Proof.
  split; [ | split ].
  - intros num JS decodeAudioData startRendering blob audioBuffer Hlen Hdecode Hrate.
    eexists. split.
    + apply decodeAndResample_resamples; eassumption.
    + rewrite Hlen. reflexivity.
  - intros decodeAudioData startRendering blob audioBuffer Hlen Hdecode Hrate Hpos.
    eexists. split.
    + apply decodeAndResample_resamples; eassumption.
    + rewrite Hlen. unfold Resample.lengthInSamples.
      destruct (AudioBuffer.sampleRate audioBuffer) as [|r|r] eqn:Er; try lia.
      change (Z.of_nat
                (Z.to_nat
                   (QNum.trunc
                      (inject_Z
                         (Qceiling
                            (inject_Z (Z.of_nat (AudioBuffer.length audioBuffer))
                             * (inject_Z Audio.SAMPLE_RATE / inject_Z (Zpos r)))))))
              = Design.resampledLength (Z.of_nat (AudioBuffer.length audioBuffer))
                  (Zpos r)).
      rewrite trunc_inject_Z, Qceiling_ratio. apply Z2Nat.id.
      unfold Design.resampledLength, Audio.SAMPLE_RATE.
      assert (- (Z.of_nat (AudioBuffer.length audioBuffer) * 48000) / Zpos r <= 0)%Z.
      { apply Z.div_le_upper_bound; lia. }
      lia.
  - vm_compute. reflexivity.
Qed.

Lemma resampled_length_witness :
  (exists out : list Q,
     Resample.decodeAndResampleToFloat32
       (Examples.silentDecoder 44100 147) Examples.silentRenderer Examples.emptyBlob
     = Some out
     /\ Z.of_nat (length out) = 160%Z)
  /\ (exists out : list spec_float,
        Resample.decodeAndResampleToFloat32
          (Examples.silentDecoder 44100 100) Examples.silentRenderer Examples.emptyBlob
        = Some out
        /\ length out = 109%nat).
Proof.
  destruct resampled_length as (Hany & Hexact & _).
  split.
  - apply (Hexact (Examples.silentDecoder 44100 147) Examples.silentRenderer
             Examples.emptyBlob (Examples.silentBuffer 44100 147)).
    + intros source len rate. apply repeat_length.
    + reflexivity.
    + discriminate.
    + reflexivity.
  - apply (Hany spec_float IEEE (Examples.silentDecoder 44100 100)
             Examples.silentRenderer Examples.emptyBlob
             (Examples.silentBuffer 44100 100)).
    + intros source len rate. apply repeat_length.
    + reflexivity.
    + discriminate.
Defined.

(** C8, as stated, fails on binary64: the quotient 48000 / 44100 is rounded
    up, and for 147 samples at 44100 Hz the product lands above 160, so that
    the buffer has 161 samples where the formula gives 160. *)
Lemma resampled_length_one_more :
  option_map (@length spec_float)
    (Resample.decodeAndResampleToFloat32
       (Examples.silentDecoder 44100 147) Examples.silentRenderer Examples.emptyBlob)
  = Some 161%nat
  /\ Design.resampledLength 147 44100 = 160%Z
  /\ option_map (fun out : list spec_float => Z.of_nat (length out))
       (Resample.decodeAndResampleToFloat32
          (Examples.silentDecoder 44100 147) Examples.silentRenderer Examples.emptyBlob)
     <> Some (Design.resampledLength 147 44100).
Proof.
  repeat split; try (vm_compute; reflexivity); vm_compute; discriminate.
Qed.

(** ** Reprocessing *)

(** [reprocessBlob] awaits two collaborators of the browser, the decoder of
    a fresh [AudioContext] and the offline renderer; they are parameters
    here.  What is the code's own is stated for every such pair. *)

Section Reprocess.
Context {num : Type} `{JSNumber num}.
Variable decodeAudioData : list DataView.byte -> option (AudioBuffer.t num).
Variable startRendering : AudioBuffer.t num -> nat -> Z -> list num.

Let reprocessBlob := Resample.reprocessBlob decodeAudioData startRendering.
Let handleReprocess := Resample.handleReprocess decodeAudioData startRendering.

Lemma handleReprocess_failure (s : @Resample.Player num) :
  reprocessBlob (Resample.original (Resample.audioData s)) (Resample.intensity s)
  = None ->
  handleReprocess s = s.
Proof.
  intro E. unfold handleReprocess, Resample.handleReprocess.
  unfold reprocessBlob in E. rewrite E. reflexivity.
Qed.

Lemma reprocessBlob_container (originalBlob : Blob) (intensity : num) (b : Blob) :
  reprocessBlob originalBlob intensity = Some b ->
  exists floatData : list num,
    Resample.decodeAndResampleToFloat32 decodeAudioData startRendering originalBlob
    = Some floatData
    /\ blobBytes b
       = Design.wavLayout Audio.SAMPLE_RATE
           (map Wav.pcm16 (Audio.processFloat32Array floatData intensity)).
Proof.
  unfold reprocessBlob, Resample.reprocessBlob.
  destruct (Resample.decodeAndResampleToFloat32 decodeAudioData startRendering
              originalBlob) as [floatData|]; cbn [bind]; [ | discriminate ].
  rewrite float32ArrayToWavBlob_layout. intro E. inversion E.
  exists floatData. split; reflexivity.
Qed.

End Reprocess.

(** * Further properties of the code *)

(** ** The recorders *)

Section RecorderFacts.
Context {num : Type} `{JSNumber num}.

Lemma skipn_repeat (z : num) (k n : nat) :
  (k <= n)%nat -> skipn k (repeat z n) = repeat z (n - k).
Proof.
  revert n; induction k as [|k IH]; intros [|n] Hk; simpl;
    try reflexivity; try lia.
  apply IH. lia.
Qed.

Lemma set_frontier (done source : list num) (z : num) (offset m : nat) :
  offset = length done ->
  (length source <= m)%nat ->
  Float32Array.set (done ++ repeat z m) source offset
  = Some ((done ++ source) ++ repeat z (m - length source)).
Proof.
  intros -> Hfit. unfold Float32Array.set.
  rewrite length_app, repeat_length.
  destruct (Nat.leb_spec (length done + length source) (length done + m)) as [_|Hno];
    [ | lia ].
  rewrite firstn_app, Nat.sub_diag, firstn_all, app_nil_r. cbn [firstn].
  rewrite skipn_app, skipn_all2 by lia. cbn [app].
  replace (length done + length source - length done)%nat with (length source) by lia.
  rewrite skipn_repeat by exact Hfit. now rewrite <- app_assoc.
Qed.

Lemma totalLength_from (chunks : list (list num)) (acc : nat) :
  fold_left (fun acc chunk => (acc + length chunk)%nat) chunks acc
  = (acc + length (concat chunks))%nat.
Proof.
  revert acc; induction chunks as [|chunk rest IH]; intro acc; simpl.
  - lia.
  - rewrite IH, length_app. lia.
Qed.

Lemma totalLength_concat (chunks : list (list num)) :
  Recorder.totalLength chunks = length (concat chunks).
Proof. unfold Recorder.totalLength. now rewrite totalLength_from. Qed.

Lemma setChunks_frontier (chunks : list (list num)) (done : list num) (z : num)
    (offset m : nat) :
  offset = length done ->
  m = length (concat chunks) ->
  Recorder.setChunks (done ++ repeat z m) offset chunks = Some (done ++ concat chunks).
Proof.
  revert done offset m; induction chunks as [|chunk rest IH];
    intros done offset m Hoff Hm; simpl in *.
  - subst m. reflexivity.
  - rewrite length_app in Hm.
    rewrite set_frontier by (trivial; lia). cbn [bind].
    rewrite IH.
    + now rewrite <- app_assoc.
    + rewrite length_app. lia.
    + lia.
Qed.

End RecorderFacts.

Lemma joinChunks_eq {num : Type} `{JSNumber num} (chunks : list (list num)) :
  Recorder.joinChunks chunks = Some (concat chunks).
Proof.
  unfold Recorder.joinChunks, Float32Array.make.
  change (repeat (lit 0) (Recorder.totalLength chunks))
    with ([] ++ repeat (lit 0) (Recorder.totalLength chunks)).
  exact (setChunks_frontier chunks [] (lit 0) 0 _ eq_refl (totalLength_concat chunks)).
Qed.

Lemma capture_from {num : Type} `{JSNumber num} (process : list num -> list num)
    (blocks : list (list num)) (refs : Recorder.Refs) :
  fold_left (fun refs inputData => fst (Recorder.onaudioprocess process refs inputData))
    blocks refs
  = {| Recorder.originalAudioData := Recorder.originalAudioData refs ++ blocks;
       Recorder.processedChunks := Recorder.processedChunks refs ++ map process blocks |}.
Proof.
  revert refs; induction blocks as [|b rest IH]; intro refs; simpl.
  - rewrite !app_nil_r. now destruct refs.
  - rewrite IH. simpl. now rewrite <- !app_assoc.
Qed.

(** X2.  A recording session: after the capture callback has run on the
    blocks in turn, stopping hands over two WAV containers, the original
    one holding the input blocks end to end and the processed one holding
    the separately processed blocks end to end, and leaves both refs empty.
    Where the block processor keeps the length of a block, as both engines
    do, the two containers have the same length, 44 bytes and two per
    captured sample. *)
Theorem recording_session {num : Type} `{JSNumber num}
    (process : list num -> list num) (blocks : list (list num)) :
  Recorder.onstop (Recorder.capture process blocks)
  = (Some {| Resample.original :=
               {| blobBytes :=
                    Design.wavLayout Audio.SAMPLE_RATE (map Wav.pcm16 (concat blocks));
                  blobType := "audio/wav" |};
             Resample.processed :=
               {| blobBytes :=
                    Design.wavLayout Audio.SAMPLE_RATE
                      (map Wav.pcm16 (concat (map process blocks)));
                  blobType := "audio/wav" |} |},
     Recorder.noChunks)
  /\ ((forall inputData, length (process inputData) = length inputData) ->
      length (Design.wavLayout Audio.SAMPLE_RATE
                (map Wav.pcm16 (concat (map process blocks))))
      = length (Design.wavLayout Audio.SAMPLE_RATE (map Wav.pcm16 (concat blocks)))
      /\ length (Design.wavLayout Audio.SAMPLE_RATE (map Wav.pcm16 (concat blocks)))
         = (44 + 2 * length (concat blocks))%nat).
Proof.
  split.
  - unfold Recorder.onstop, Recorder.capture. rewrite capture_from.
    cbn [Recorder.originalAudioData Recorder.processedChunks Recorder.noChunks app].
    rewrite !joinChunks_eq. cbn [bind].
    rewrite !float32ArrayToWavBlob_layout. cbn [bind]. reflexivity.
  - intro Hkeeps. rewrite !length_wavLayout, !length_map.
    split; [ | reflexivity ]. f_equal. f_equal.
    induction blocks as [|b rest IH]; simpl; [ reflexivity | ].
    now rewrite !length_app, Hkeeps, IH.
Qed.

Lemma recording_session_witness :
  length (Design.wavLayout Audio.SAMPLE_RATE
            (map Wav.pcm16
               (concat (map (AudioRecorder.processAudioWithRNNoise Examples.Balanced)
                          [[0.5; -0.25]; [0.001]]))))
  = 50%nat.
Proof.
  destruct (recording_session
              (AudioRecorder.processAudioWithRNNoise Examples.Balanced)
              [[0.5; -0.25]; [0.001]]) as (_ & Hsame).
  destruct (Hsame (length_processAudioWithRNNoise Examples.Balanced)) as (Heq & Hlen).
  rewrite Heq, Hlen. reflexivity.
Defined.

(** ** Explicit mode works sample by sample *)

Section Locality.
Context {num : Type} `{JSNumber num}.
Variable p : AudioRecorder.Params num.

Lemma processSample_app_l (b1 b2 : list num) (i : nat) :
  (i < length b1)%nat ->
  AudioRecorder.processSample p (b1 ++ b2) i = AudioRecorder.processSample p b1 i.
Proof.
  intro Hi. unfold AudioRecorder.processSample, AudioRecorder.highPass.
  rewrite !(app_nth1 b1 b2) by lia. reflexivity.
Qed.

Lemma processSample_app_r (b1 b2 : list num) (j : nat) :
  (0 < j)%nat ->
  AudioRecorder.processSample p (b1 ++ b2) (length b1 + j)
  = AudioRecorder.processSample p b2 j.
Proof.
  intro Hj. unfold AudioRecorder.processSample, AudioRecorder.highPass.
  replace (length b1 + j - 1)%nat with (length b1 + (j - 1))%nat by lia.
  rewrite !app_nth2_plus.
  destruct (Nat.ltb_spec 0 (length b1 + j)); [ | lia ].
  destruct (Nat.ltb_spec 0 j); [ | lia ].
  reflexivity.
Qed.

Lemma firstn_processed (b1 b2 : list num) :
  firstn (length b1) (AudioRecorder.processAudioWithRNNoise p (b1 ++ b2))
  = AudioRecorder.processAudioWithRNNoise p b1.
Proof.
  apply (nth_ext _ _ (lit 0) (lit 0)).
  - rewrite length_firstn, !length_processAudioWithRNNoise, length_app. lia.
  - intros i Hi.
    rewrite length_firstn, length_processAudioWithRNNoise, length_app in Hi.
    rewrite nth_firstn. destruct (Nat.ltb_spec i (length b1)); [ | lia ].
    rewrite !nth_processAudioWithRNNoise by (rewrite ?length_app; lia).
    now rewrite processSample_app_l.
Qed.

Lemma skipn_processed (b1 b2 : list num) :
  skipn (S (length b1)) (AudioRecorder.processAudioWithRNNoise p (b1 ++ b2))
  = skipn 1 (AudioRecorder.processAudioWithRNNoise p b2).
Proof.
  apply (nth_ext _ _ (lit 0) (lit 0)).
  - rewrite !length_skipn, !length_processAudioWithRNNoise, length_app. lia.
  - intros i Hi.
    rewrite length_skipn, length_processAudioWithRNNoise, length_app in Hi.
    rewrite !nth_skipn.
    rewrite !nth_processAudioWithRNNoise by (rewrite ?length_app; lia).
    replace (S (length b1) + i)%nat with (length b1 + S i)%nat by lia.
    rewrite processSample_app_r by lia. reflexivity.
Qed.

End Locality.

(** X3.  The explicit engine reads, for each output sample, only the input
    sample at the same index and the one before it.  So the output for two
    blocks laid end to end starts with the output for the first block, and
    after the first sample of the second block it continues with the output
    for the second block: processing block by block changes the result at
    the first sample of a block and nowhere else. *)
Theorem explicit_mode_block_boundary {num : Type} `{JSNumber num}
    (p : AudioRecorder.Params num) (b1 b2 : list num) :
  firstn (length b1) (AudioRecorder.processAudioWithRNNoise p (b1 ++ b2))
  = AudioRecorder.processAudioWithRNNoise p b1
  /\ skipn (S (length b1)) (AudioRecorder.processAudioWithRNNoise p (b1 ++ b2))
     = skipn 1 (AudioRecorder.processAudioWithRNNoise p b2).
Proof. split; [ apply firstn_processed | apply skipn_processed ]. Qed.

(** ** Gains and ranges on exact arithmetic *)

Lemma Qabs_bounds (x y : Q) : Qabs x <= y <-> - y <= x /\ x <= y.
Proof. apply Qabs_Qle_condition. Qed.

Lemma ratio_in_unit (x y : Q) : 0 <= x -> x <= y -> 0 < y -> 0 <= x / y /\ x / y <= 1.
Proof.
  intros Hx Hxy Hy. split.
  - apply Qle_shift_div_l; [ exact Hy | lra ].
  - apply Qle_shift_div_r; [ exact Hy | lra ].
Qed.

Lemma nth_in_range (l : list Q) (i : nat) :
  Forall (fun x => -1 <= x /\ x <= 1) l -> -1 <= nth i l 0 /\ nth i l 0 <= 1.
Proof.
  intro Hl. revert i; induction Hl as [|x l Hx Hl IH]; intros [|i]; simpl;
    try (split; discriminate); [ exact Hx | apply IH ].
Qed.

Section ExplicitRange.
Import AudioRecorder.
Variable p : Params Q.
Hypothesis Hrs : 0 <= reductionStrength p /\ reductionStrength p <= 1.

Lemma noiseGate_shrinks (sample : Q) :
  let gated := noiseGate p (Qabs sample) sample in
  (0 <= sample -> 0 <= gated /\ gated <= sample)
  /\ (sample <= 0 -> sample <= gated /\ gated <= 0).
Proof.
  intro gated. subst gated.
  destruct (noiseGate_cases p sample) as (Hlow & Hmid & Hhigh).
  pose proof (Qabs_nonneg sample) as Ha.
  destruct (Qlt_le_dec (Qabs sample) (noiseThreshold p)) as [Hc1|Hc1].
  - rewrite (Hlow Hc1). split; intro; nra.
  - destruct (Qlt_le_dec (Qabs sample) (preservationThreshold p)) as [Hc2|Hc2].
    + rewrite (Hmid (conj Hc1 Hc2)). unfold Design.transitionFactor.
      destruct (ratio_in_unit (Qabs sample - noiseThreshold p)
                  (preservationThreshold p - noiseThreshold p)) as (Hp0 & Hp1);
        try lra.
      set (position := (Qabs sample - noiseThreshold p)
                       / (preservationThreshold p - noiseThreshold p)) in *.
      assert (Hf0 : 0 <= reductionStrength p + position * (1 - reductionStrength p))
        by nra.
      assert (Hf1 : reductionStrength p + position * (1 - reductionStrength p) <= 1)
        by nra.
      split; intro; nra.
    + rewrite (Hhigh (conj Hc1 Hc2)). split; intro; lra.
Qed.

End ExplicitRange.

(** X4.  With [reductionStrength] in [0, 1], the noise gate never amplifies
    and never flips a sample: the gated sample lies between zero and the
    input sample, for every input value and every pair of thresholds. *)
Theorem gate_never_amplifies (p : AudioRecorder.Params Q) (sample : Q) :
  0 <= AudioRecorder.reductionStrength p ->
  AudioRecorder.reductionStrength p <= 1 ->
  Qabs (AudioRecorder.noiseGate p (Qabs sample) sample) <= Qabs sample
  /\ (0 <= sample -> 0 <= AudioRecorder.noiseGate p (Qabs sample) sample)
  /\ (sample <= 0 -> AudioRecorder.noiseGate p (Qabs sample) sample <= 0).
Proof.
  intros Hrs0 Hrs1.
  destruct (noiseGate_shrinks p (conj Hrs0 Hrs1) sample) as (Hpos & Hneg).
  split; [ | split ].
  - apply Qabs_bounds.
    destruct (Qlt_le_dec sample 0) as [Hs|Hs].
    + pose proof (Qabs_neg sample) as E. destruct Hneg; lra.
    + pose proof (Qabs_pos sample) as E. destruct Hpos; lra.
  - intro Hs. apply Hpos, Hs.
  - intro Hs. apply Hneg, Hs.
Qed.

Lemma gate_never_amplifies_witness :
  Qabs (AudioRecorder.noiseGate Examples.Balanced (Qabs (-0.01)) (-0.01)) <= Qabs (-0.01)
  /\ AudioRecorder.noiseGate Examples.Balanced (Qabs (-0.01)) (-0.01) <= 0.
Proof.
  destruct (gate_never_amplifies Examples.Balanced (-0.01)) as (Habs & _ & Hneg);
    try (vm_compute; discriminate).
  split; [ exact Habs | apply Hneg; vm_compute; discriminate ].
Defined.

(** X5.  Explicit mode keeps a signal in range: with [reductionStrength]
    and [highPassStrength] in [0, 1], a buffer whose samples all lie in
    [-1, 1] is processed into a buffer whose samples all lie in [-1, 1],
    whatever the two thresholds are, so that the encoder has nothing to
    clip. *)
Theorem explicit_mode_stays_in_range (p : AudioRecorder.Params Q) (inputData : list Q) :
  0 <= AudioRecorder.reductionStrength p ->
  AudioRecorder.reductionStrength p <= 1 ->
  0 <= AudioRecorder.highPassStrength p ->
  AudioRecorder.highPassStrength p <= 1 ->
  Forall (fun x => -1 <= x /\ x <= 1) inputData ->
  Forall (fun y => -1 <= y /\ y <= 1) (AudioRecorder.processAudioWithRNNoise p inputData).
Proof.
  intros Hrs0 Hrs1 Hhp0 Hhp1 Hin.
  unfold AudioRecorder.processAudioWithRNNoise. apply Forall_map, Forall_forall.
  intros i _. simpl fround. rewrite processSample_steps.
  pose proof (nth_in_range inputData i Hin) as Hs.
  pose proof (nth_in_range inputData (i - 1) Hin) as Hprev.
  set (sample := nth i inputData 0) in *.
  set (prev := nth (i - 1) inputData 0) in *.
  destruct (noiseGate_shrinks p (conj Hrs0 Hrs1) sample) as (Hpos & Hneg).
  set (gated := AudioRecorder.noiseGate p (Qabs sample) sample) in *.
  assert (Hg : -1 <= gated /\ gated <= 1).
  { destruct (Qlt_le_dec sample 0) as [Hc|Hc].
    - destruct Hneg; lra.
    - destruct Hpos; lra. }
  assert (Hf : -1 <= AudioRecorder.highPass p inputData i gated
               /\ AudioRecorder.highPass p inputData i gated <= 1).
  { unfold AudioRecorder.highPass; simpl. fold prev.
    destruct ((0 <? i)%nat && QNum.ltb 0 (AudioRecorder.highPassStrength p));
      [ | exact Hg ].
    split; nra. }
  set (x := AudioRecorder.highPass p inputData i gated) in *.
  assert (Ha : 0 <= Qabs sample /\ Qabs sample <= 1).
  { split; [ apply Qabs_nonneg | apply Qabs_bounds; lra ]. }
  destruct (preserveDynamics_cases p (Qabs sample) x) as (Hon & Hoff).
  destruct (Qlt_le_dec (AudioRecorder.preservationThreshold p) (Qabs sample)) as [H1|H1];
    [ destruct (Qlt_le_dec 0.8 (Qabs sample)) as [H2|H2] | ].
  - destruct (Hon (conj H1 H2)) as (Hxneg & Hxpos).
    destruct (Qlt_le_dec x 0) as [Hx|Hx].
    + rewrite (Hxneg Hx). split; lra.
    + rewrite (Hxpos Hx). split; lra.
  - rewrite (Hoff (or_intror H2)). exact Hf.
  - rewrite (Hoff (or_introl H1)). exact Hf.
Qed.

Lemma explicit_mode_stays_in_range_witness :
  Forall (fun y => -1 <= y /\ y <= 1)
    (AudioRecorder.processAudioWithRNNoise Examples.Aggressive [1; -1; 0.02; 0.9]).
Proof.
  apply explicit_mode_stays_in_range; try (vm_compute; discriminate).
  repeat constructor; vm_compute; discriminate.
Defined.

(** ** Adaptive mode: gain and level *)

Lemma reduceSample_gain (vt nt intensity sample : Q) :
  0 <= intensity -> intensity <= 1 ->
  (0 <= sample ->
   0 <= Audio.reduceSample vt nt intensity sample
   /\ Audio.reduceSample vt nt intensity sample <= 1.1 * sample)
  /\ (sample <= 0 ->
      1.1 * sample <= Audio.reduceSample vt nt intensity sample
      /\ Audio.reduceSample vt nt intensity sample <= 0).
Proof.
  intros Hi0 Hi1. unfold Audio.reduceSample; simpl.
  destruct (QNum.ltb vt (Qabs sample)); [ | destruct (QNum.ltb nt (Qabs sample)) ];
    split; intro Hs; split; nra.
Qed.

(** X6.  With the intensity in [0, 1], adaptive mode never flips a sample
    and never raises its level by more than the voice boost: every output
    sample lies between zero and 1.1 times the input sample at the same
    index. *)
Theorem adaptive_gain_at_most_boost (inputData : list Q) (intensity : Q) (i : nat) (sample : Q) :
  0 <= intensity -> intensity <= 1 ->
  nth_error inputData i = Some sample ->
  (0 <= sample ->
   0 <= nth i (Audio.processFloat32Array inputData intensity) 0
   /\ nth i (Audio.processFloat32Array inputData intensity) 0 <= 1.1 * sample)
  /\ (sample <= 0 ->
      1.1 * sample <= nth i (Audio.processFloat32Array inputData intensity) 0
      /\ nth i (Audio.processFloat32Array inputData intensity) 0 <= 0).
Proof.
  intros Hi0 Hi1 E. unfold Audio.processFloat32Array.
  rewrite (nth_map_Some _ _ _ _ 0 E). simpl fround.
  now apply reduceSample_gain.
Qed.

Lemma adaptive_gain_at_most_boost_witness :
  1.1 * (-0.05) <= nth 1 (Audio.processFloat32Array Examples.mixedBuffer 0.9) 0
  /\ nth 1 (Audio.processFloat32Array Examples.mixedBuffer 0.9) 0 <= 0.
Proof.
  apply (adaptive_gain_at_most_boost Examples.mixedBuffer 0.9 1 (-0.05));
    try (vm_compute; discriminate); reflexivity.
Defined.

(** ** Polarity, on binary64 *)

(** Rounding to nearest does not look at the sign. *)
Lemma binary_round_aux_opp (prec emax : Z) (s : bool) (m e : Z) (l : location) :
  binary_round_aux prec emax (negb s) m e l
  = SFopp (binary_round_aux prec emax s m e l).
Proof.
  unfold binary_round_aux.
  destruct (shr_fexp prec emax m e l) as [mrs e'].
  destruct (shr_fexp prec emax
              (round_nearest_even (shr_m mrs) (loc_of_shr_record mrs)) e' loc_Exact)
    as [mrs' e''].
  destruct (shr_m mrs') as [|p|p]; [ reflexivity | | reflexivity ].
  destruct (e'' <=? emax - prec)%Z; reflexivity.
Qed.

Lemma binary_round_opp (prec emax : Z) (s : bool) (m : positive) (e : Z) :
  binary_round prec emax (negb s) m e = SFopp (binary_round prec emax s m e).
Proof.
  unfold binary_round.
  destruct (shl_align m e (fexp prec emax (Z.pos (digits2_pos m) + e))) as [mz ez].
  apply binary_round_aux_opp.
Qed.

Lemma xorb_negb_l (a b : bool) : xorb (negb a) b = negb (xorb a b).
Proof. destruct a, b; reflexivity. Qed.

Lemma SFmul_opp_l (x y : spec_float) :
  SFmul B64.prec B64.emax (SFopp x) y = SFopp (SFmul B64.prec B64.emax x y).
Proof.
  destruct x as [sx|sx| |sx mx ex], y as [sy|sy| |sy my ey];
    cbn [SFopp SFmul]; try reflexivity;
    rewrite xorb_negb_l; try reflexivity.
  apply binary_round_aux_opp.
Qed.

Lemma fround_opp (x : spec_float) : B64.fround (SFopp x) = SFopp (B64.fround x).
Proof.
  destruct x as [s|s| |s m e]; try reflexivity.
  cbn [SFopp B64.fround]. rewrite binary_round_opp.
  destruct (binary_round 24 128 s m e) as [s'|s'| |s' m' e'];
    cbn [SFopp]; try reflexivity.
  apply binary_round_opp.
Qed.

Lemma SFabs_opp (x : spec_float) : SFabs (SFopp x) = SFabs x.
Proof. destruct x; reflexivity. Qed.

Lemma signalCharacteristics_opp (inputData : list spec_float) :
  Audio.signalCharacteristics (map SFopp inputData)
  = Audio.signalCharacteristics inputData.
Proof.
  unfold Audio.signalCharacteristics.
  generalize (@lit spec_float IEEE 0, @lit spec_float IEEE 0).
  induction inputData as [|x rest IH]; intro acc; cbn [map fold_left];
    [ reflexivity | ].
  rewrite IH. cbn [Math_abs IEEE]. rewrite SFabs_opp. reflexivity.
Qed.

Lemma reduceSample_opp (vt nt intensity sample : spec_float) :
  Audio.reduceSample vt nt intensity (SFopp sample)
  = SFopp (Audio.reduceSample vt nt intensity sample).
Proof.
  unfold Audio.reduceSample. cbn [Math_abs IEEE]. rewrite SFabs_opp.
  destruct (lt vt (SFabs sample)); [ apply SFmul_opp_l | ].
  destruct (lt nt (SFabs sample)); apply SFmul_opp_l.
Qed.

(** X7.  On binary64, adaptive mode commutes with polarity inversion, bit
    for bit: for every buffer (zeros of either sign, infinities and NaN
    included) and every intensity, the output for the inverted buffer is
    the inverted output.  The statistics read absolute values only, and
    the products and the store into the [Float32Array] round to nearest,
    which does not look at the sign. *)
Theorem adaptive_mode_keeps_polarity (inputData : list spec_float) (intensity : spec_float) :
  Audio.processFloat32Array (map SFopp inputData) intensity
  = map SFopp (Audio.processFloat32Array inputData intensity).
Proof.
  unfold Audio.processFloat32Array, Audio.voiceThreshold, Audio.noiseThreshold,
    Audio.avgAmplitude.
  rewrite signalCharacteristics_opp, length_map, !map_map.
  apply map_ext. intro sample.
  rewrite reduceSample_opp. apply fround_opp.
Qed.

(** ** Mixing down and decoding *)

Section Mixdown.
Variable len : nat.
Variable count : Q.

(** One pass of the outer loop of [mixDownToMono]. *)
Let mix (out ch : list Q) : list Q :=
  map (fun i => nth i out 0 + nth i ch 0 / count) (seq 0 len).

Lemma mix_fold (channels : list (list Q)) (out : list Q) (i : nat) :
  (i < len)%nat ->
  nth i (fold_left mix channels out) 0
  == nth i out 0 + fold_right Qplus 0 (map (fun ch => nth i ch 0) channels) / count.
Proof.
  intro Hi. revert out; induction channels as [|ch rest IH]; intro out;
    cbn [fold_left map fold_right].
  - unfold Qdiv. ring.
  - rewrite IH. unfold mix. rewrite nth_map_seq by exact Hi.
    unfold Qdiv. ring.
Qed.

Lemma length_mix_fold (channels : list (list Q)) (out : list Q) :
  length out = len -> length (fold_left mix channels out) = len.
Proof.
  revert out; induction channels as [|ch rest IH]; intros out Hout; simpl.
  - exact Hout.
  - apply IH. unfold mix. now rewrite length_map, length_seq.
Qed.

End Mixdown.

Lemma sum_of_copies (x : Q) (n : nat) :
  fold_right Qplus 0 (repeat x n) == inject_Z (Z.of_nat n) * x.
Proof.
  induction n as [|n IH]; cbn [repeat fold_right].
  - change (inject_Z (Z.of_nat 0)) with 0. ring.
  - rewrite IH, Nat2Z.inj_succ. unfold Z.succ. rewrite inject_Z_plus. ring.
Qed.

(** X8.  On exact arithmetic [mixDownToMono] returns, for a buffer whose
    planes all have the length of the buffer, a signal of that length whose
    sample at each index is the arithmetic mean of the channel samples at
    that index.  When all the planes carry the same signal, that signal is
    what comes out. *)
Theorem mixdown_is_the_mean (buffer : AudioBuffer.t Q) :
  Forall (fun ch => length ch = AudioBuffer.length buffer)
    (AudioBuffer.channelData buffer) ->
  length (Resample.mixDownToMono buffer) = AudioBuffer.length buffer
  /\ (forall i, (i < AudioBuffer.length buffer)%nat ->
        nth i (Resample.mixDownToMono buffer) 0
        == fold_right Qplus 0 (map (fun ch => nth i ch 0) (AudioBuffer.channelData buffer))
           / inject_Z (Z.of_nat (AudioBuffer.numberOfChannels buffer)))
  /\ (forall ch, AudioBuffer.channelData buffer <> [] ->
        Forall (fun c => c = ch) (AudioBuffer.channelData buffer) ->
        forall i, (i < AudioBuffer.length buffer)%nat ->
          nth i (Resample.mixDownToMono buffer) 0 == nth i ch 0).
Proof.
  intros _.
  assert (Hmean : forall i, (i < AudioBuffer.length buffer)%nat ->
            nth i (Resample.mixDownToMono buffer) 0
            == fold_right Qplus 0
                 (map (fun ch => nth i ch 0) (AudioBuffer.channelData buffer))
               / inject_Z (Z.of_nat (AudioBuffer.numberOfChannels buffer))).
  { intros i Hi. unfold Resample.mixDownToMono.
    etransitivity;
      [ exact (mix_fold (AudioBuffer.length buffer)
                 (inject_Z (Z.of_nat (AudioBuffer.numberOfChannels buffer)))
                 (AudioBuffer.channelData buffer)
                 (repeat 0 (AudioBuffer.length buffer)) i Hi) | ].
    rewrite nth_repeat. ring. }
  split; [ | split; [ exact Hmean | ] ].
  - unfold Resample.mixDownToMono.
    exact (length_mix_fold (AudioBuffer.length buffer)
             (inject_Z (Z.of_nat (AudioBuffer.numberOfChannels buffer)))
             (AudioBuffer.channelData buffer)
             (repeat 0 (AudioBuffer.length buffer))
             (repeat_length 0 (AudioBuffer.length buffer))).
  - intros ch Hsome Hsame i Hi. rewrite (Hmean i Hi).
    unfold AudioBuffer.numberOfChannels.
    assert (Hcopies : map (fun c => nth i c 0) (AudioBuffer.channelData buffer)
                      = repeat (nth i ch 0) (length (AudioBuffer.channelData buffer))).
    { clear Hsome Hmean. induction Hsame as [|c rest Hc Hrest IH]; simpl;
        [ reflexivity | ].
      subst c. f_equal. exact IH. }
    rewrite Hcopies, sum_of_copies.
    assert (Hpos : 0 < inject_Z (Z.of_nat (length (AudioBuffer.channelData buffer)))).
    { change 0 with (inject_Z 0). rewrite <- Zlt_Qlt.
      destruct (AudioBuffer.channelData buffer); [ contradiction | simpl; lia ]. }
    field. lra.
Qed.

Lemma mixdown_is_the_mean_witness :
  nth 0 (Resample.mixDownToMono
           {| AudioBuffer.sampleRate := 48000; AudioBuffer.length := 2;
              AudioBuffer.channelData := [[1; 1]; [-1; -1]] |}) 0 == 0
  /\ nth 1 (Resample.mixDownToMono
              {| AudioBuffer.sampleRate := 48000; AudioBuffer.length := 2;
                 AudioBuffer.channelData := [[0.5; 0.25]; [0.5; 0.25]] |}) 0 == 0.25.
Proof.
  split.
  - destruct (mixdown_is_the_mean
                {| AudioBuffer.sampleRate := 48000; AudioBuffer.length := 2;
                   AudioBuffer.channelData := [[1; 1]; [-1; -1]] |})
      as (_ & Hmean & _); [ repeat constructor | ].
    rewrite (Hmean 0%nat) by (simpl; lia). reflexivity.
  - destruct (mixdown_is_the_mean
                {| AudioBuffer.sampleRate := 48000; AudioBuffer.length := 2;
                   AudioBuffer.channelData := [[0.5; 0.25]; [0.5; 0.25]] |})
      as (_ & _ & Hsame); [ repeat constructor | ].
    rewrite (Hsame [0.5; 0.25]); [ reflexivity | discriminate | | simpl; lia ].
    repeat constructor.
Defined.

(** X9.  With the offline renderer taken as a function that returns,
    reprocessing fails exactly when the decoder rejects the bytes of the
    original: the mixdown, the noise reduction and the encoder cannot throw.
    On such a failure [handleReprocess] leaves the player as it was, with
    the processed audio it held before. *)
Theorem reprocess_fails_with_the_decoder {num : Type} `{JSNumber num}
    (decodeAudioData : list DataView.byte -> option (AudioBuffer.t num))
    (startRendering : AudioBuffer.t num -> nat -> Z -> list num)
    (blob : Blob) (intensity : num) :
  (Resample.reprocessBlob decodeAudioData startRendering blob intensity = None
   <-> decodeAudioData (blobBytes blob) = None)
  /\ (forall s : @Resample.Player num,
        decodeAudioData (blobBytes (Resample.original (Resample.audioData s))) = None ->
        Resample.handleReprocess decodeAudioData startRendering s = s).
Proof.
  assert (Hiff : forall b i,
            Resample.reprocessBlob decodeAudioData startRendering b i = None
            <-> decodeAudioData (blobBytes b) = None).
  { intros b i.
    unfold Resample.reprocessBlob, Resample.decodeAndResampleToFloat32.
    destruct (decodeAudioData (blobBytes b)) as [audioBuffer|]; cbn [bind].
    - destruct (AudioBuffer.sampleRate audioBuffer =? Audio.SAMPLE_RATE)%Z;
        cbn [bind]; rewrite float32ArrayToWavBlob_layout; split; discriminate.
    - split; reflexivity. }
  split; [ apply Hiff | ].
  intros s Hreject. apply handleReprocess_failure. now apply Hiff.
Qed.

Lemma reprocess_fails_with_the_decoder_witness :
  Resample.handleReprocess (fun _ => None) Examples.silentRenderer Examples.usedPlayer
  = Examples.usedPlayer.
Proof.
  destruct (reprocess_fails_with_the_decoder (fun _ => None) Examples.silentRenderer
              Examples.emptyBlob 0.5) as (_ & Hkeep).
  apply Hkeep. reflexivity.
Defined.

(** ** Reading the header back *)

Lemma le_combine_le_bytes (n : nat) (z : Z) :
  DataView.le_combine (DataView.le_bytes n z) = (z mod 2 ^ (8 * Z.of_nat n))%Z.
Proof.
  revert z; induction n as [|n IH]; intro z; cbn [DataView.le_bytes DataView.le_combine].
  - change (2 ^ (8 * Z.of_nat 0))%Z with 1%Z. now rewrite Z.mod_1_r.
  - rewrite IH, land_255, Z.shiftr_div_pow2 by lia.
    change (2 ^ 8)%Z with 256%Z.
    replace (2 ^ (8 * Z.of_nat (S n)))%Z with (256 * 2 ^ (8 * Z.of_nat n))%Z.
    + rewrite (Z.rem_mul_r z 256 (2 ^ (8 * Z.of_nat n))) by lia. reflexivity.
    + rewrite Nat2Z.inj_succ.
      replace (8 * Z.succ (Z.of_nat n))%Z with (8 + 8 * Z.of_nat n)%Z by lia.
      rewrite Z.pow_add_r by lia. reflexivity.
Qed.

(** X11.  The header of a container tells its own size.  For every buffer
    and sample rate that fit in 32 bits, the RIFF size field read back as a
    little-endian u32 is the length of the file less 8, the data size field
    is the length less 44, which is two bytes per sample, and the format
    fields read back as PCM, one channel, the sample rate, a byte rate of
    twice the sample rate, a block of 2 bytes and 16 bits per sample. *)
Theorem wav_header_reads_back {num : Type} `{JSNumber num}
    (audioData : list num) (sampleRate : Z) :
  (0 <= sampleRate)%Z ->
  (sampleRate * 2 < 2 ^ 32)%Z ->
  (36 + 2 * Z.of_nat (length audioData) < 2 ^ 32)%Z ->
  exists blob : Blob,
    Wav.float32ArrayToWavBlob audioData sampleRate = Some blob
    /\ WavReader.getUint32 (blobBytes blob) 4 = (Z.of_nat (length (blobBytes blob)) - 8)%Z
    /\ WavReader.getUint32 (blobBytes blob) 40
       = (Z.of_nat (length (blobBytes blob)) - 44)%Z
    /\ WavReader.getUint32 (blobBytes blob) 40 = (2 * Z.of_nat (length audioData))%Z
    /\ WavReader.getUint32 (blobBytes blob) 16 = 16%Z
    /\ WavReader.getUint16 (blobBytes blob) 20 = 1%Z
    /\ WavReader.getUint16 (blobBytes blob) 22 = 1%Z
    /\ WavReader.getUint32 (blobBytes blob) 24 = sampleRate
    /\ WavReader.getUint32 (blobBytes blob) 28 = (sampleRate * 2)%Z
    /\ WavReader.getUint16 (blobBytes blob) 32 = 2%Z
    /\ WavReader.getUint16 (blobBytes blob) 34 = 16%Z.
Proof.
  intros Hrate0 Hrate Hsize.
  eexists. split; [ apply float32ArrayToWavBlob_layout | ].
  cbn [blobBytes]. rewrite length_wavLayout, length_map.
  set (samples := map Wav.pcm16 audioData).
  assert (Hn : length samples = length audioData) by apply length_map.
  unfold WavReader.getUint32, WavReader.getUint16.
  change (DataView.slice (Design.wavLayout sampleRate samples) 4 4)
    with (DataView.le_bytes 4 (36 + Z.of_nat (length samples) * 2)).
  change (DataView.slice (Design.wavLayout sampleRate samples) 40 4)
    with (DataView.le_bytes 4 (Z.of_nat (length samples) * 2)).
  change (DataView.slice (Design.wavLayout sampleRate samples) 16 4)
    with (DataView.le_bytes 4 16).
  change (DataView.slice (Design.wavLayout sampleRate samples) 20 2)
    with (DataView.le_bytes 2 1).
  change (DataView.slice (Design.wavLayout sampleRate samples) 22 2)
    with (DataView.le_bytes 2 1).
  change (DataView.slice (Design.wavLayout sampleRate samples) 24 4)
    with (DataView.le_bytes 4 sampleRate).
  change (DataView.slice (Design.wavLayout sampleRate samples) 28 4)
    with (DataView.le_bytes 4 (sampleRate * 2)).
  change (DataView.slice (Design.wavLayout sampleRate samples) 32 2)
    with (DataView.le_bytes 2 2).
  change (DataView.slice (Design.wavLayout sampleRate samples) 34 2)
    with (DataView.le_bytes 2 16).
  rewrite !le_combine_le_bytes, Hn.
  change (2 ^ (8 * Z.of_nat 4))%Z with (2 ^ 32)%Z.
  change (2 ^ (8 * Z.of_nat 2))%Z with 65536%Z.
  rewrite !Z.mod_small by lia.
  repeat split; try reflexivity; lia.
Qed.

Lemma wav_header_reads_back_witness :
  exists blob : Blob,
    Wav.float32ArrayToWavBlob [0.5; -0.5; 0.25] Audio.SAMPLE_RATE = Some blob
    /\ WavReader.getUint32 (blobBytes blob) 4 = 42%Z
    /\ WavReader.getUint32 (blobBytes blob) 24 = 48000%Z.
Proof.
  destruct (wav_header_reads_back [0.5; -0.5; 0.25] Audio.SAMPLE_RATE)
    as (blob & Hblob & Hriff & _ & _ & _ & _ & _ & Hrate & _);
    [ vm_compute; discriminate | vm_compute; reflexivity | vm_compute; reflexivity | ].
  exists blob. split; [ exact Hblob | ]. split; [ | exact Hrate ].
  rewrite Hriff.
  pose proof (float32ArrayToWavBlob_layout [0.5; -0.5; 0.25] Audio.SAMPLE_RATE) as E.
  rewrite Hblob in E. inversion E. reflexivity.
Defined.

(** ** Quantisation: order and error *)

Lemma trunc_floor (q : Q) : 0 <= q -> QNum.trunc q = Qfloor q.
Proof.
  destruct q as [n d]. unfold Qle, QNum.trunc, Qfloor; simpl. intro Hq.
  apply Z.quot_div_nonneg; lia.
Qed.

Lemma trunc_ceiling (q : Q) : q <= 0 -> QNum.trunc q = Qceiling q.
Proof.
  destruct q as [n d]. unfold Qle, QNum.trunc, Qceiling, Qfloor; simpl. intro Hq.
  replace n with (- - n)%Z at 1 by lia.
  rewrite Z.quot_opp_l, Z.quot_div_nonneg by lia. reflexivity.
Qed.

(** The truncated value lies between zero and the argument, less than one
    away from it. *)
Lemma trunc_spec (q : Q) :
  (0 <= q -> 0 <= inject_Z (QNum.trunc q) /\ inject_Z (QNum.trunc q) <= q
             /\ q < inject_Z (QNum.trunc q) + 1)
  /\ (q <= 0 -> inject_Z (QNum.trunc q) <= 0 /\ q <= inject_Z (QNum.trunc q)
                /\ inject_Z (QNum.trunc q) - 1 < q).
Proof.
  split; intro Hq.
  - rewrite (trunc_floor q Hq).
    pose proof (Qfloor_le q) as Hlo. pose proof (Qlt_floor q) as Hhi.
    rewrite inject_Z_plus in Hhi. change (inject_Z 1) with 1 in Hhi.
    assert (H0 : (0 <= Qfloor q)%Z).
    { change 0%Z with (Qfloor 0). apply Qfloor_resp_le, Hq. }
    rewrite Zle_Qle in H0. change (inject_Z 0) with 0 in H0.
    repeat split; lra.
  - rewrite (trunc_ceiling q Hq).
    pose proof (Qle_ceiling q) as Hhi. pose proof (Qceiling_lt q) as Hlo.
    unfold Z.sub in Hlo. rewrite inject_Z_plus, inject_Z_opp in Hlo.
    change (inject_Z 1) with 1 in Hlo.
    assert (H0 : (Qceiling q <= 0)%Z).
    { change 0%Z with (Qceiling 0). apply Qceiling_resp_le, Hq. }
    rewrite Zle_Qle in H0. change (inject_Z 0) with 0 in H0.
    repeat split; lra.
Qed.

Lemma trunc_monotone (q1 q2 : Q) : q1 <= q2 -> (QNum.trunc q1 <= QNum.trunc q2)%Z.
Proof.
  intro Hle.
  destruct (trunc_spec q1) as (Hpos1 & Hneg1).
  destruct (trunc_spec q2) as (Hpos2 & Hneg2).
  assert (Hlt : inject_Z (QNum.trunc q1) < inject_Z (QNum.trunc q2) + 1).
  { destruct (Qlt_le_dec q1 0) as [H1|H1]; destruct (Qlt_le_dec q2 0) as [H2|H2].
    - destruct Hneg1 as (_ & _ & A); [ lra | ].
      destruct Hneg2 as (_ & B & _); [ lra | ]. lra.
    - destruct Hneg1 as (A & _ & _); [ lra | ].
      destruct Hpos2 as (B & _ & _); [ lra | ]. lra.
    - lra.
    - destruct Hpos1 as (_ & A & _); [ lra | ].
      destruct Hpos2 as (_ & _ & B); [ lra | ]. lra. }
  change 1 with (inject_Z 1) in Hlt. rewrite <- inject_Z_plus, <- Zlt_Qlt in Hlt.
  lia.
Qed.

Lemma clamp_monotone (x y : Q) : x <= y -> Wav.clamp x <= Wav.clamp y.
Proof.
  intro Hle.
  destruct (clamp_cases x) as (Hrx & Hx1 & Hx2 & Hx3).
  destruct (clamp_cases y) as (Hry & Hy1 & Hy2 & Hy3).
  destruct (Qlt_le_dec x (-1)) as [A|A]; [ rewrite Hx1 by lra; lra | ].
  destruct (Qlt_le_dec 1 y) as [B|B]; [ rewrite (Hy2 (Qlt_le_weak _ _ B)); lra | ].
  rewrite Hx3, Hy3 by lra. exact Hle.
Qed.

Lemma intSample_monotone (c1 c2 : Q) : c1 <= c2 -> Wav.intSample c1 <= Wav.intSample c2.
Proof.
  intro Hle.
  destruct (intSample_cases c1) as (Hn1 & Hp1).
  destruct (intSample_cases c2) as (Hn2 & Hp2).
  destruct (Qlt_le_dec c1 0) as [A|A]; destruct (Qlt_le_dec c2 0) as [B|B].
  - rewrite (Hn1 A), (Hn2 B). lra.
  - rewrite (Hn1 A), (Hp2 B). lra.
  - lra.
  - rewrite (Hp1 A), (Hp2 B). lra.
Qed.

(** X12.  The quantiser preserves order and saturates: a larger sample is
    never stored as a smaller 16-bit value, zero is stored as zero, no
    positive sample is stored as a negative value and no negative sample as a
    positive one, every sample at or above 1 is stored as 32767 and every
    sample at or below -1 as -32768. *)
Theorem pcm16_monotone_and_saturating (x y : Q) :
  (x <= y -> (Wav.pcm16 x <= Wav.pcm16 y)%Z)
  /\ (x == 0 -> Wav.pcm16 x = 0%Z)
  /\ (0 <= x -> (0 <= Wav.pcm16 x)%Z)
  /\ (x <= 0 -> (Wav.pcm16 x <= 0)%Z)
  /\ (1 <= x -> Wav.pcm16 x = 32767%Z)
  /\ (x <= -1 -> Wav.pcm16 x = (-32768)%Z).
Proof.
  assert (Hmono : forall a b, a <= b -> (Wav.pcm16 a <= Wav.pcm16 b)%Z).
  { intros a b Hab. unfold Wav.pcm16. cbn [ToInteger Ideal].
    apply trunc_monotone, intSample_monotone, clamp_monotone, Hab. }
  assert (Hzero : Wav.pcm16 0 = 0%Z) by reflexivity.
  assert (Hone : Wav.pcm16 1 = 32767%Z) by reflexivity.
  assert (Hmone : Wav.pcm16 (-1) = (-32768)%Z) by reflexivity.
  pose proof (pcm16_range x) as Hrange.
  split; [ apply Hmono | ].
  split; [ intro Hx; apply Z.le_antisymm; rewrite <- Hzero; apply Hmono; lra | ].
  split; [ intro Hx; rewrite <- Hzero; apply Hmono, Hx | ].
  split; [ intro Hx; rewrite <- Hzero; apply Hmono, Hx | ].
  split; intro Hx.
  - apply Z.le_antisymm; [ lia | rewrite <- Hone; apply Hmono, Hx ].
  - apply Z.le_antisymm; [ rewrite <- Hmone; apply Hmono, Hx | lia ].
Qed.

Lemma pcm16_monotone_and_saturating_witness :
  (Wav.pcm16 0.25%Q <= Wav.pcm16 0.5%Q)%Z /\ Wav.pcm16 1.1 = 32767%Z
  /\ Wav.pcm16 (-3) = (-32768)%Z.
Proof.
  destruct (pcm16_monotone_and_saturating 0.25 0.5) as (Hmono & _).
  destruct (pcm16_monotone_and_saturating 1.1 0) as (_ & _ & _ & _ & Hhigh & _).
  destruct (pcm16_monotone_and_saturating (-3) 0) as (_ & _ & _ & _ & _ & Hlow).
  split; [ apply Hmono; vm_compute; discriminate | ].
  split; [ apply Hhigh; vm_compute; discriminate | apply Hlow; vm_compute; discriminate ].
Defined.

(** X13.  Within [-1, 1] the quantisation error is less than one step, and
    the stored value never overshoots: for [0 <= x <= 1] the stored value
    [v] has [v <= 32767 x < v + 1], and for [-1 <= x < 0] it has
    [v - 1 < 32768 x <= v]. *)
Theorem pcm16_error_below_one_step (x : Q) :
  -1 <= x -> x <= 1 ->
  (0 <= x ->
   inject_Z (Wav.pcm16 x) <= x * 32767 /\ x * 32767 < inject_Z (Wav.pcm16 x) + 1)
  /\ (x < 0 ->
      inject_Z (Wav.pcm16 x) - 1 < x * 32768 /\ x * 32768 <= inject_Z (Wav.pcm16 x)).
Proof.
  intros Hlo Hhi.
  destruct (clamp_cases x) as (_ & _ & _ & Hc). specialize (Hc (conj Hlo Hhi)).
  destruct (intSample_cases (Wav.clamp x)) as (Hneg & Hpos).
  unfold Wav.pcm16. cbn [ToInteger Ideal].
  destruct (trunc_spec (Wav.intSample (Wav.clamp x))) as (Tpos & Tneg).
  split; intro Hx.
  - assert (E : Wav.intSample (Wav.clamp x) == x * 32767)
      by (rewrite Hpos by lra; rewrite Hc; reflexivity).
    destruct Tpos as (_ & A & B); [ lra | ]. split; lra.
  - assert (E : Wav.intSample (Wav.clamp x) == x * 32768)
      by (rewrite Hneg by lra; rewrite Hc; reflexivity).
    destruct Tneg as (_ & A & B); [ lra | ]. split; lra.
Qed.

Lemma pcm16_error_below_one_step_witness :
  inject_Z (Wav.pcm16 0.3) <= 0.3 * 32767
  /\ 0.3 * 32767 < inject_Z (Wav.pcm16 0.3) + 1
  /\ inject_Z (Wav.pcm16 (-0.3)) - 1 < -0.3 * 32768.
Proof.
  destruct (pcm16_error_below_one_step 0.3) as (Hpos & _);
    [ vm_compute; discriminate | vm_compute; discriminate | ].
  destruct (pcm16_error_below_one_step (-0.3)) as (_ & Hneg);
    [ vm_compute; discriminate | vm_compute; discriminate | ].
  destruct Hpos as (A & B); [ vm_compute; discriminate | ].
  destruct Hneg as (C & _); [ vm_compute; reflexivity | ].
  split; [ exact A | split; [ exact B | exact C ] ].
Defined.

(** ** One NaN and the whole block, on binary64 *)

Lemma SFadd_nan_r (x : spec_float) : SFadd B64.prec B64.emax x S754_nan = S754_nan.
Proof. destruct x; reflexivity. Qed.

Lemma sum_with_nan (l : list spec_float) (m s : spec_float) :
  s = S754_nan \/ In S754_nan l ->
  snd (fold_left
         (fun acc x => (Math_max (fst acc) (Math_abs x), add (snd acc) (Math_abs x)))
         l (m, s))
  = S754_nan.
Proof.
  revert m s; induction l as [|x l IH]; intros m s Hnan; cbn [fold_left fst snd].
  - destruct Hnan as [Hs|[]]. exact Hs.
  - apply IH. destruct Hnan as [Hs|[Hx|Hin]].
    + left. rewrite Hs. reflexivity.
    + left. rewrite Hx. cbn [Math_abs IEEE SFabs add]. apply SFadd_nan_r.
    + right. exact Hin.
Qed.

(** X14.  On binary64, one NaN anywhere in a block spoils the statistics of
    adaptive mode: the average and both thresholds are NaN, no sample can
    compare above them, and every sample of the block, however loud, is
    scaled by the factor meant for the weakest noise,
    [1 - (0.8 + intensity * 0.19)]. *)
Theorem one_nan_mutes_the_block
    (inputData : list spec_float) (intensity : spec_float) (i : nat) (sample : spec_float) :
  In S754_nan inputData ->
  nth_error inputData i = Some sample ->
  Audio.avgAmplitude inputData = S754_nan
  /\ Audio.voiceThreshold inputData intensity = S754_nan
  /\ Audio.noiseThreshold inputData intensity = S754_nan
  /\ nth_error (Audio.processFloat32Array inputData intensity) i
     = Some (fround (mul sample (sub (lit 1) (add (lit 0.8) (mul intensity (lit 0.19)))))).
Proof.
  intros Hnan E.
  assert (Havg : Audio.avgAmplitude inputData = S754_nan).
  { unfold Audio.avgAmplitude, Audio.signalCharacteristics.
    rewrite sum_with_nan by (right; exact Hnan). reflexivity. }
  assert (Hvt : Audio.voiceThreshold inputData intensity = S754_nan)
    by (unfold Audio.voiceThreshold; rewrite Havg; reflexivity).
  assert (Hnt : Audio.noiseThreshold inputData intensity = S754_nan)
    by (unfold Audio.noiseThreshold; rewrite Havg; reflexivity).
  repeat split; try assumption.
  unfold Audio.processFloat32Array. rewrite nth_error_map, E, Hvt, Hnt.
  reflexivity.
Qed.

Lemma one_nan_mutes_the_block_witness :
  Audio.voiceThreshold Examples.corruptBuffer (B64.of_Q 0.5) = S754_nan
  /\ nth_error (Audio.processFloat32Array Examples.corruptBuffer (B64.of_Q 0.5)) 0
     = Some (B64.fround
               (SFmul B64.prec B64.emax (B64.of_Q 0.5)
                  (B64.of_Q (105 # 1000)))).
Proof.
  destruct (one_nan_mutes_the_block Examples.corruptBuffer (B64.of_Q 0.5) 0
              (B64.of_Q 0.5)) as (_ & Hvt & _ & Hout).
  - right. left. reflexivity.
  - reflexivity.
  - split; [ exact Hvt | ]. rewrite Hout. vm_compute. reflexivity.
Defined.

(** ** Block by block against the whole recording *)

Section BlockByBlock.
Context {num : Type} `{JSNumber num}.
Variable p : AudioRecorder.Params num.

Let process := AudioRecorder.processAudioWithRNNoise p.

Lemma length_concat_processed (blocks : list (list num)) :
  length (concat (map process blocks)) = length (concat blocks).
Proof.
  induction blocks as [|b rest IH]; simpl; [ reflexivity | ].
  unfold process at 1. now rewrite !length_app, length_processAudioWithRNNoise, IH.
Qed.

Lemma chunkOffsets_shift (blocks : list (list num)) (base n k : nat) :
  In k (Recorder.chunkOffsets base blocks) ->
  In (n + k)%nat (Recorder.chunkOffsets (n + base) blocks).
Proof.
  revert base; induction blocks as [|c rest IH]; intros base Hin;
    cbn [Recorder.chunkOffsets] in *; [ contradiction | ].
  destruct Hin as [Hhead|Htail]; [ left; lia | right ].
  replace (n + base + length c)%nat with (n + (base + length c))%nat by lia.
  now apply IH.
Qed.

Lemma blockwise_agrees (blocks : list (list num)) (g : nat) (d : num) :
  (g < length (concat blocks))%nat ->
  ~ In g (tl (Recorder.chunkOffsets 0 blocks)) ->
  nth g (concat (map process blocks)) d = nth g (process (concat blocks)) d.
Proof.
  revert g; induction blocks as [|b rest IH]; intros g Hg Hnot;
    cbn [concat map Recorder.chunkOffsets tl] in *; [ simpl in Hg; lia | ].
  rewrite length_app in Hg.
  destruct (Nat.lt_ge_cases g (length b)) as [Hin|Hout].
  - rewrite app_nth1 by (unfold process; now rewrite length_processAudioWithRNNoise).
    unfold process. rewrite <- (firstn_processed p b (concat rest)).
    rewrite nth_firstn. destruct (Nat.ltb_spec g (length b)); [ reflexivity | lia ].
  - rewrite app_nth2 by (unfold process; rewrite length_processAudioWithRNNoise; lia).
    unfold process at 1. rewrite length_processAudioWithRNNoise. fold process.
    set (j := (g - length b)%nat).
    assert (Hg' : g = (length b + j)%nat) by (subst j; lia).
    replace (0 + length b)%nat with (length b + 0)%nat in Hnot by lia.
    assert (Hj : ~ In j (Recorder.chunkOffsets 0 rest)).
    { intro Hin. apply Hnot. rewrite Hg'. now apply chunkOffsets_shift. }
    assert (Hpos : (0 < j)%nat).
    { destruct rest as [|c rest']; [ simpl in Hg; lia | ].
      destruct j; [ | lia ]. exfalso. apply Hj. left. reflexivity. }
    rewrite IH.
    + rewrite Hg'. replace (length b + j)%nat with (S (length b) + (j - 1))%nat by lia.
      rewrite <- nth_skipn. unfold process. rewrite skipn_processed.
      rewrite nth_skipn. f_equal. lia.
    + lia.
    + intro Hin. apply Hj. destruct (Recorder.chunkOffsets 0 rest); [ contradiction | ].
      right. exact Hin.
Qed.

End BlockByBlock.

(** X15.  What the explicit recorder stores against what the engine would
    give on the whole recording.  The processed buffer that finalisation
    joins agrees with the engine run over all the captured samples at once
    at every index, except where a block other than the first begins (the
    offsets of the joining loop): there the filter has no previous sample. *)
Theorem explicit_recorder_resets_at_block_starts {num : Type} `{JSNumber num}
    (p : AudioRecorder.Params num) (blocks : list (list num)) (g : nat) (d : num) :
  (g < length (concat blocks))%nat ->
  ~ In g (tl (Recorder.chunkOffsets 0 blocks)) ->
  exists processedBuffer : list num,
    Recorder.joinChunks
      (Recorder.processedChunks
         (Recorder.capture (AudioRecorder.processAudioWithRNNoise p) blocks))
    = Some processedBuffer
    /\ length processedBuffer = length (concat blocks)
    /\ nth g processedBuffer d
       = nth g (AudioRecorder.processAudioWithRNNoise p (concat blocks)) d.
Proof.
  intros Hg Hnot.
  exists (concat (map (AudioRecorder.processAudioWithRNNoise p) blocks)).
  split; [ | split ].
  - unfold Recorder.capture. rewrite capture_from.
    cbn [Recorder.processedChunks Recorder.noChunks app].
    apply joinChunks_eq.
  - apply length_concat_processed.
  - now apply blockwise_agrees.
Qed.

Lemma explicit_recorder_resets_at_block_starts_witness :
  exists processedBuffer : list Q,
    Recorder.joinChunks
      (Recorder.processedChunks
         (Recorder.capture (AudioRecorder.processAudioWithRNNoise Examples.Balanced)
            [[0.5; 0.25]; [0.1; -0.2]]))
    = Some processedBuffer
    /\ length processedBuffer = 4%nat
    /\ nth 3 processedBuffer 0
       = nth 3 (AudioRecorder.processAudioWithRNNoise Examples.Balanced
                  [0.5; 0.25; 0.1; -0.2]) 0.
Proof.
  apply (explicit_recorder_resets_at_block_starts Examples.Balanced
           [[0.5; 0.25]; [0.1; -0.2]] 3 0).
  - simpl. lia.
  - simpl. intros [Hstart|[]]. discriminate Hstart.
Defined.

(** ** Reading the samples back *)

Lemma nth_readSamples (sampleRate : Z) (samples : list Z) (i : nat) :
  (i < length samples)%nat ->
  nth i (WavReader.readSamples (Design.wavLayout sampleRate samples)) 0%Z
  = DataView.getInt16 (flat_map (DataView.le_bytes 2) samples) (2 * i).
Proof.
  intro Hi. unfold WavReader.readSamples.
  rewrite length_wavLayout.
  replace ((44 + 2 * length samples - 44) / 2)%nat with (length samples)
    by (rewrite Nat.add_comm, Nat.add_sub, Nat.mul_comm, Nat.div_mul; lia).
  rewrite nth_map_seq by exact Hi.
  apply getInt16_wavLayout.
Qed.

(** X16.  Round trip through the container, on exact arithmetic: reading
    the data chunk of an encoded buffer back, two bytes at a time as signed
    little-endian integers, returns exactly the quantised sample values, one
    for each sample and in order. *)
Theorem wav_samples_read_back (audioData : list Q) (sampleRate : Z) :
  exists blob : Blob,
    Wav.float32ArrayToWavBlob audioData sampleRate = Some blob
    /\ WavReader.readSamples (blobBytes blob) = map Wav.pcm16 audioData.
Proof.
  eexists. split; [ apply float32ArrayToWavBlob_layout | ].
  cbn [blobBytes].
  apply (nth_ext _ _ 0%Z 0%Z).
  - unfold WavReader.readSamples.
    rewrite length_map, length_seq, length_wavLayout.
    rewrite Nat.add_comm, Nat.add_sub, Nat.mul_comm, Nat.div_mul by lia.
    reflexivity.
  - intros i Hi.
    assert (Hlen : (i < length (map Wav.pcm16 audioData))%nat).
    { unfold WavReader.readSamples in Hi.
      rewrite length_map, length_seq, length_wavLayout in Hi.
      rewrite Nat.add_comm, Nat.add_sub, Nat.mul_comm, Nat.div_mul in Hi by lia.
      exact Hi. }
    rewrite nth_readSamples by exact Hlen.
    destruct (nth_error (map Wav.pcm16 audioData) i) as [z|] eqn:E.
    + rewrite (getInt16_samples _ i z E).
      * symmetry. now apply nth_error_nth.
      * rewrite nth_error_map in E.
        destruct (nth_error audioData i) as [x|]; [ | discriminate E ].
        inversion E. apply pcm16_range.
    + apply nth_error_None in E. lia.
Qed.

(** ** A steady level in adaptive mode *)

Lemma sum_abs_constant (a : Q) (l : list Q) :
  Forall (fun s => Qabs s == a) l ->
  fold_right Qplus 0 (map Qabs l) == inject_Z (Z.of_nat (length l)) * a.
Proof.
  intro Hl. induction Hl as [|s l Hs Hl IH]; cbn [map fold_right length].
  - change (inject_Z (Z.of_nat 0)) with 0. ring.
  - rewrite IH, Hs, Nat2Z.inj_succ. unfold Z.succ. rewrite inject_Z_plus. ring.
Qed.

Lemma adaptive_bands_of (inputData : list Q) (intensity : Q) (i : nat) (sample : Q) :
  nth_error inputData i = Some sample ->
  (Audio.voiceThreshold inputData intensity < Qabs sample ->
   nth i (Audio.processFloat32Array inputData intensity) 0 == sample * 1.1)
  /\ (Audio.noiseThreshold inputData intensity < Qabs sample
      /\ Qabs sample <= Audio.voiceThreshold inputData intensity ->
      nth i (Audio.processFloat32Array inputData intensity) 0
      == sample * (1 - (0.5 + intensity * 0.4)))
  /\ (Qabs sample <= Audio.noiseThreshold inputData intensity ->
      nth i (Audio.processFloat32Array inputData intensity) 0
      == sample * (1 - (0.8 + intensity * 0.19))).
Proof.
  intro E. unfold Audio.processFloat32Array.
  rewrite (nth_map_Some _ _ _ _ 0 E). cbn [fround Ideal].
  exact (reduceSample_bands _ intensity sample (avgAmplitude_nonneg inputData)).
Qed.

(** X17.  Adaptive mode judges a sample against the average of its block,
    so a block of steady level is never taken for voice: when all samples
    of a block have the same amplitude (a square wave, a DC offset), then
    for every intensity in [0, 1] every sample is attenuated to
    [1 - (0.5 + intensity * 0.4)] of its value, whatever the level is. *)
Theorem steady_level_is_attenuated (inputData : list Q) (a intensity : Q) (i : nat) (sample : Q) :
  0 <= intensity -> intensity <= 1 ->
  Forall (fun s => Qabs s == a) inputData ->
  nth_error inputData i = Some sample ->
  nth i (Audio.processFloat32Array inputData intensity) 0
  == sample * (1 - (0.5 + intensity * 0.4)).
Proof.
  intros Hi0 Hi1 Hsteady E.
  assert (Ha : Qabs sample == a).
  { apply nth_error_In in E. rewrite Forall_forall in Hsteady. now apply Hsteady. }
  pose proof (Qabs_nonneg sample) as Hnonneg.
  assert (Havg : Audio.avgAmplitude inputData == a).
  { rewrite avgAmplitude_meanAbs. unfold Design.meanAbs.
    rewrite (sum_abs_constant a inputData Hsteady).
    assert (Hn : 0 < inject_Z (Z.of_nat (length inputData))).
    { change 0 with (inject_Z 0). rewrite <- Zlt_Qlt.
      destruct inputData; [ destruct i; discriminate E | simpl; lia ]. }
    field. lra. }
  destruct (adaptive_bands_of inputData intensity i sample E) as (Hv & Hm & Hn).
  destruct (Qlt_le_dec 0 a) as [Hpos|Hzero].
  - apply Hm. unfold Audio.voiceThreshold, Audio.noiseThreshold.
    cbn [lit sub mul Ideal]. rewrite Havg, Ha. split; nra.
  - assert (Hs : sample == 0).
    { destruct (Qabs_bounds sample 0) as (Hb & _). destruct Hb; lra. }
    rewrite Hn.
    + rewrite Hs. ring.
    + unfold Audio.noiseThreshold. cbn [lit sub mul Ideal]. rewrite Havg, Ha.
      assert (Ha0 : a == 0) by lra. rewrite Ha0. lra.
Qed.

Lemma steady_level_is_attenuated_witness :
  nth 1 (Audio.processFloat32Array [0.5; -0.5; 0.5] 0.5) 0
  == -0.5 * (1 - (0.5 + 0.5 * 0.4)).
Proof.
  apply (steady_level_is_attenuated [0.5; -0.5; 0.5] 0.5 0.5 1 (-0.5)).
  - vm_compute; discriminate.
  - vm_compute; discriminate.
  - repeat constructor.
  - reflexivity.
Defined.

(** ** Non-finite samples in the encoder, on binary64 *)

(** X18.  Where a non-finite sample reaches the encoder, on binary64, it
    cannot corrupt the container: at whatever index it stands, a NaN is
    stored as the sample value 0, positive infinity as 32767 and negative
    infinity as -32768. *)
Theorem non_finite_samples_encode
    (audioData : list spec_float) (sampleRate : Z) (i : nat) (x : spec_float) :
  nth_error audioData i = Some x ->
  B64.is_finite x = false ->
  exists blob : Blob,
    Wav.float32ArrayToWavBlob audioData sampleRate = Some blob
    /\ DataView.getInt16 (blobBytes blob) (44 + 2 * i)
       = match x with
         | S754_infinity false => 32767%Z
         | S754_infinity true => (-32768)%Z
         | _ => 0%Z
         end.
Proof.
  intros E Hx.
  eexists. split; [ apply float32ArrayToWavBlob_layout | ].
  cbn [blobBytes]. rewrite getInt16_wavLayout.
  assert (Eint : nth_error (map Wav.pcm16 audioData) i = Some (Wav.pcm16 x))
    by (rewrite nth_error_map, E; reflexivity).
  rewrite (getInt16_samples _ i _ Eint).
  - destruct x as [s|[|]| |s m e]; try discriminate Hx; reflexivity.
  - destruct x as [s|[|]| |s m e]; try discriminate Hx; vm_compute;
      split; discriminate.
Qed.

Lemma non_finite_samples_encode_witness :
  exists blob : Blob,
    Wav.float32ArrayToWavBlob Examples.corruptBuffer Audio.SAMPLE_RATE = Some blob
    /\ DataView.getInt16 (blobBytes blob) 46 = 0%Z.
Proof.
  exact (non_finite_samples_encode Examples.corruptBuffer Audio.SAMPLE_RATE 1
           S754_nan eq_refl eq_refl).
Defined.

(** ** The gate keeps the order of levels *)

Lemma product_monotone (s1 s2 f1 f2 : Q) :
  0 <= s1 -> s1 <= s2 -> 0 <= f1 -> f1 <= f2 -> s1 * f1 <= s2 * f2.
Proof.
  intros Hs0 Hs Hf0 Hf.
  assert (A : s1 * f1 <= s2 * f1) by (apply Qmult_le_compat_r; assumption).
  assert (B : s2 * f1 <= s2 * f2).
  { rewrite (Qmult_comm s2 f1), (Qmult_comm s2 f2).
    apply Qmult_le_compat_r; [ assumption | lra ]. }
  lra.
Qed.

Section GateOrder.
Import AudioRecorder.
Variable p : Params Q.
Hypothesis Hrs : 0 <= reductionStrength p /\ reductionStrength p <= 1.

Lemma transitionFactor_bounds (a : Q) :
  noiseThreshold p <= a -> a < preservationThreshold p ->
  reductionStrength p <= Design.transitionFactor p a
  /\ Design.transitionFactor p a <= 1.
Proof.
  intros Hlo Hhi. unfold Design.transitionFactor.
  destruct (ratio_in_unit (a - noiseThreshold p)
              (preservationThreshold p - noiseThreshold p)) as (Q0 & Q1);
    try lra.
  set (position := (a - noiseThreshold p)
                   / (preservationThreshold p - noiseThreshold p)) in *.
  split; nra.
Qed.

Lemma transitionFactor_monotone (a1 a2 : Q) :
  noiseThreshold p < preservationThreshold p -> a1 <= a2 ->
  Design.transitionFactor p a1 <= Design.transitionFactor p a2.
Proof.
  intros Hgap Hle. unfold Design.transitionFactor.
  assert (Hpos : (a1 - noiseThreshold p)
                 / (preservationThreshold p - noiseThreshold p)
                 <= (a2 - noiseThreshold p)
                    / (preservationThreshold p - noiseThreshold p)).
  { unfold Qdiv. apply Qmult_le_compat_r; [ lra | ].
    apply Qinv_le_0_compat. lra. }
  set (pos1 := (a1 - noiseThreshold p)
               / (preservationThreshold p - noiseThreshold p)) in *.
  set (pos2 := (a2 - noiseThreshold p)
               / (preservationThreshold p - noiseThreshold p)) in *.
  nra.
Qed.

Lemma noiseGate_monotone (s1 s2 : Q) :
  0 <= s1 -> s1 <= s2 ->
  noiseGate p (Qabs s1) s1 <= noiseGate p (Qabs s2) s2.
Proof.
  intros H0 Hle.
  pose proof (Qabs_pos s1 H0) as A1.
  assert (H02 : 0 <= s2) by lra.
  pose proof (Qabs_pos s2 H02) as A2.
  destruct (noiseGate_cases p s1) as (L1 & M1 & U1).
  destruct (noiseGate_cases p s2) as (L2 & M2 & U2).
  destruct (Qlt_le_dec (Qabs s1) (noiseThreshold p)) as [C1|C1];
    [ rewrite (L1 C1)
    | destruct (Qlt_le_dec (Qabs s1) (preservationThreshold p)) as [D1|D1];
      [ rewrite (M1 (conj C1 D1)) | rewrite (U1 (conj C1 D1)) ] ];
    (destruct (Qlt_le_dec (Qabs s2) (noiseThreshold p)) as [C2|C2];
     [ rewrite (L2 C2)
     | destruct (Qlt_le_dec (Qabs s2) (preservationThreshold p)) as [D2|D2];
       [ rewrite (M2 (conj C2 D2)) | rewrite (U2 (conj C2 D2)) ] ]).
  - apply product_monotone; lra.
  - destruct (transitionFactor_bounds (Qabs s2) C2 D2). apply product_monotone; lra.
  - rewrite <- (Qmult_1_r s2). apply product_monotone; lra.
  - exfalso; lra.
  - destruct (transitionFactor_bounds (Qabs s1) C1 D1).
    apply product_monotone; try lra.
    apply transitionFactor_monotone; lra.
  - destruct (transitionFactor_bounds (Qabs s1) C1 D1).
    rewrite <- (Qmult_1_r s2). apply product_monotone; lra.
  - exfalso; lra.
  - exfalso; lra.
  - exact Hle.
Qed.

End GateOrder.

(** X19.  With [reductionStrength] in [0, 1] the noise gate preserves the
    order of levels: of two non-negative samples the larger is never gated
    to the smaller value, wherever the two thresholds lie, and likewise,
    mirrored, for two non-positive samples. *)
Theorem gate_preserves_order (p : AudioRecorder.Params Q) (s1 s2 : Q) :
  0 <= AudioRecorder.reductionStrength p ->
  AudioRecorder.reductionStrength p <= 1 ->
  s1 <= s2 ->
  (0 <= s1 \/ s2 <= 0) ->
  AudioRecorder.noiseGate p (Qabs s1) s1 <= AudioRecorder.noiseGate p (Qabs s2) s2.
Proof.
  intros Hrs0 Hrs1 Hle [Hpos|Hneg].
  - apply noiseGate_monotone; [ split | | ]; assumption.
  - assert (Hodd : forall s, AudioRecorder.noiseGate p (Qabs (- s)) (- s)
                             == - AudioRecorder.noiseGate p (Qabs s) s).
    { intro s. destruct (noiseGate_cases p s) as (L & M & U).
      destruct (noiseGate_cases p (- s)) as (L' & M' & U').
      pose proof (Qabs_opp s) as Ho.
      destruct (Qlt_le_dec (Qabs s) (AudioRecorder.noiseThreshold p)) as [C|C];
        [ rewrite (L C), L' by lra; ring | ].
      destruct (Qlt_le_dec (Qabs s) (AudioRecorder.preservationThreshold p)) as [D|D].
      - rewrite (M (conj C D)), M' by lra.
        unfold Design.transitionFactor. rewrite Ho. ring.
      - rewrite (U (conj C D)), U' by lra. reflexivity. }
    assert (Hmirror : AudioRecorder.noiseGate p (Qabs (- s2)) (- s2)
                      <= AudioRecorder.noiseGate p (Qabs (- s1)) (- s1)).
    { apply noiseGate_monotone; [ split; assumption | lra | lra ]. }
    rewrite !Hodd in Hmirror. lra.
Qed.

Lemma gate_preserves_order_witness :
  AudioRecorder.noiseGate Examples.Crossed (Qabs 0.015) 0.015
  <= AudioRecorder.noiseGate Examples.Crossed (Qabs 0.02) 0.02.
Proof.
  apply gate_preserves_order.
  - vm_compute; discriminate.
  - vm_compute; discriminate.
  - vm_compute; discriminate.
  - left. vm_compute; discriminate.
Defined.

(** ** Where each chunk lands *)

Lemma chunk_at_offset {num : Type} `{JSNumber num}
    (chunks : list (list num)) (base k offset : nat) (chunk : list num) :
  nth_error chunks k = Some chunk ->
  nth_error (Recorder.chunkOffsets base chunks) k = Some offset ->
  (base <= offset)%nat
  /\ firstn (length chunk) (skipn (offset - base) (concat chunks)) = chunk.
Proof.
  revert base k; induction chunks as [|c rest IH]; intros base [|k] Echunk Eoffset;
    cbn [nth_error Recorder.chunkOffsets concat] in *; try discriminate Echunk.
  - inversion Echunk; subst c. inversion Eoffset; subst offset.
    split; [ lia | ].
    rewrite Nat.sub_diag. cbn [skipn].
    rewrite firstn_app, Nat.sub_diag, firstn_all. cbn [firstn]. apply app_nil_r.
  - destruct (IH (base + length c)%nat k Echunk Eoffset) as (Hle & Hfound).
    split; [ lia | ].
    rewrite skipn_app, skipn_all2 by lia. cbn [app].
    replace (offset - base - length c)%nat with (offset - (base + length c))%nat by lia.
    exact Hfound.
Qed.

(** X1.  The finalisation loop never writes out of range: the buffer it
    fills has the summed length of the chunks and is exactly the chunks laid
    end to end in arrival order, each chunk standing whole at the offset
    the loop had when it wrote it, so that no write lands on an earlier
    one. *)
Theorem joinChunks_concat {num : Type} `{JSNumber num} (chunks : list (list num)) :
  exists buffer : list num,
    Recorder.joinChunks chunks = Some buffer
    /\ buffer = concat chunks
    /\ length buffer = Recorder.totalLength chunks
    /\ (forall k chunk offset,
          nth_error chunks k = Some chunk ->
          nth_error (Recorder.chunkOffsets 0 chunks) k = Some offset ->
          firstn (length chunk) (skipn offset buffer) = chunk).
Proof.
  exists (concat chunks).
  split; [ apply joinChunks_eq | ]. split; [ reflexivity | ].
  split; [ symmetry; apply totalLength_concat | ].
  intros k chunk offset Echunk Eoffset.
  destruct (chunk_at_offset chunks 0 k offset chunk Echunk Eoffset) as (_ & Hfound).
  now rewrite Nat.sub_0_r in Hfound.
Qed.

Lemma joinChunks_concat_witness :
  exists buffer : list Q,
    Recorder.joinChunks [[0.5; 0.25]; []; [0.1]] = Some buffer
    /\ firstn 1 (skipn 2 buffer) = [0.1].
Proof.
  destruct (joinChunks_concat [[0.5; 0.25]; []; [0.1]])
    as (buffer & Hjoin & _ & _ & Hat).
  exists buffer. split; [ exact Hjoin | ].
  exact (Hat 2%nat [0.1] 2%nat eq_refl eq_refl).
Defined.
